(** * CsvDataProcessor: validation and batching of financial-contract rows

    A shallow embedding of [src/CsvDataProcessor.ts] and [src/types.ts].

    - JavaScript strings are sequences of UTF-16 code units: [jsstring] is a
      list of code units, each an [N].  [.length] is the length of that list.
    - JavaScript numbers are IEEE 754 binary64 values: [number] is
      [spec_float] at precision 53 and maximal exponent 1024.  Where the
      program only adds and multiplies small integers (the check-digit sums,
      the record counter) the model uses [Z], with [None] for [NaN].
    - The class instance is a record; every method takes the instance and
      returns the updated instance (explicit state passing).  What
      [console.log] prints is appended to an explicit console. *)

From Stdlib Require Import ZArith NArith List Bool String Ascii Lia.
From Stdlib Require Import Floats.SpecFloat.
Import ListNotations.

Local Open Scope Z_scope.

(** ** Strings *)

Definition code_unit := N.
Definition jsstring := list code_unit.

(** A string literal of the source, as its code units (ASCII literals only). *)
Definition lit (s : string) : jsstring :=
  List.map N_of_ascii (list_ascii_of_string s).

(** The class [\d] of a regular expression without the [u] flag: [0-9]. *)
Definition is_digit (c : code_unit) : bool :=
  (48 <=? c)%N && (c <=? 57)%N.

(** [s.replace(/\D/g, '')]: every code unit that is not in [0-9] is removed. *)
Definition strip_non_digits (s : jsstring) : jsstring :=
  filter is_digit s.

(** [/^(\d)\1{k}$/.test(s)]: one digit followed by [k] copies of itself, and
    nothing else. *)
Definition repeated_digit (k : nat) (s : jsstring) : bool :=
  match s with
  | [] => false
  | c :: rest =>
      is_digit c && forallb (N.eqb c) rest && Nat.eqb (List.length rest) k
  end.

(** [s.substring(0, n)] for [0 <= n]. *)
Definition substring0 (n : nat) (s : jsstring) : jsstring := firstn n s.

(** [s[i]]: [None] stands for [undefined]. *)
Definition char_at (s : jsstring) (i : nat) : option jsstring :=
  match nth_error s i with
  | Some c => Some [c]
  | None => None
  end.

(** ** Numbers *)

Definition number := spec_float.
Definition prec := 53.
Definition emax := 1024.

Definition NaN : number := S754_nan.

(** The Number value of a mathematical integer (round to nearest, ties to
    even); [neg] gives the sign of a zero. *)
Definition number_of_Z (neg : bool) (z : Z) : number :=
  binary_normalize prec emax z 0 neg.

(** [x / y] and [x === y] on numbers. *)
Definition number_div (x y : number) : number := SFdiv prec emax x y.
Definition number_eq (x y : number) : bool := SFeqb x y.

(** White space and line terminators, as [TrimString] removes them. *)
Definition is_white_space (c : code_unit) : bool :=
  existsb (N.eqb c)
    [9; 10; 11; 12; 13; 32; 160; 5760; 8192; 8193; 8194; 8195; 8196; 8197;
     8198; 8199; 8200; 8201; 8202; 8232; 8233; 8239; 8287; 12288; 65279]%N.

Fixpoint trim_start (s : jsstring) : jsstring :=
  match s with
  | c :: rest => if is_white_space c then trim_start rest else s
  | [] => []
  end.

(** The value of a code unit as a digit of some radix up to 36. *)
Definition radix_digit (c : code_unit) : option Z :=
  if (48 <=? c)%N && (c <=? 57)%N then Some (Z.of_N c - 48)
  else if (97 <=? c)%N && (c <=? 122)%N then Some (Z.of_N c - 87)
  else if (65 <=? c)%N && (c <=? 90)%N then Some (Z.of_N c - 55)
  else None.

(** The longest prefix of [s] made of radix-[R] digits, as digit values. *)
Fixpoint digits_prefix (R : Z) (s : jsstring) : list Z :=
  match s with
  | [] => []
  | c :: rest =>
      match radix_digit c with
      | Some d => if d <? R then d :: digits_prefix R rest else []
      | None => []
      end
  end.

Definition radix_value (R : Z) (ds : list Z) : Z :=
  fold_left (fun acc d => acc * R + d) ds 0.

Definition strip_sign (s : jsstring) : bool * jsstring :=
  match s with
  | 45%N :: rest => (true, rest)
  | 43%N :: rest => (false, rest)
  | _ => (false, s)
  end.

Definition strip_hex_prefix (s : jsstring) : option jsstring :=
  match s with
  | 48%N :: 120%N :: rest => Some rest
  | 48%N :: 88%N :: rest => Some rest
  | _ => None
  end.

(** [parseInt(s, radix)] before the conversion to a Number: [None] is [NaN],
    [Some (neg, n)] is the integer [n >= 0] with sign [neg].  [radix = None]
    is a call without the second argument. *)
Definition parseInt_sign_magnitude (s : jsstring) (radix : option Z)
  : option (bool * Z) :=
  let '(neg, str) := strip_sign (trim_start s) in
  let R := match radix with Some r => r | None => 0 end in
  if negb (R =? 0) && ((R <? 2) || (36 <? R)) then None
  else
    let '(R, str) :=
      if (R =? 0) || (R =? 16) then
        match strip_hex_prefix str with
        | Some str' => (16, str')
        | None => (if R =? 0 then 10 else R, str)
        end
      else (R, str) in
    match digits_prefix R str with
    | [] => None
    | ds => Some (neg, radix_value R ds)
    end.

(** [parseInt] as an integer, for integer arithmetic ([-0] is [0]). *)
Definition parseInt_Z (s : option jsstring) (radix : option Z) : option Z :=
  match s with
  | None => None (* ToString(undefined) has no digit *)
  | Some s =>
      match parseInt_sign_magnitude s radix with
      | Some (neg, n) => Some (if neg then - n else n)
      | None => None
      end
  end.

(** [parseInt] as a Number. *)
Definition parseInt (s : jsstring) (radix : option Z) : number :=
  match parseInt_sign_magnitude s radix with
  | Some (neg, n) => number_of_Z neg (if neg then - n else n)
  | None => NaN
  end.

(** ** Check digits

    The two validators declare the same local function, [calcularDigito] in
    [validateCPF] and [calcularDigitoCNPJ] in [validateCNPJ].  Its sum is a
    sum of integers, or [NaN] ([None]) as soon as one term is [NaN]:
    [pesos[i]] is [undefined] beyond the end of [pesos]. *)

Definition nan_add (x y : option Z) : option Z :=
  match x, y with Some a, Some b => Some (a + b) | _, _ => None end.

Definition nan_mul (x y : option Z) : option Z :=
  match x, y with Some a, Some b => Some (a * b) | _, _ => None end.

(** The [for] loop, from index [i] on: [numeros] and [pesos] are what is left
    of the two sequences at [i]. *)
Fixpoint soma_loop (numeros : jsstring) (pesos : list Z) (soma : option Z)
  : option Z :=
  match numeros with
  | [] => soma
  | c :: numeros' =>
      soma_loop numeros' (tl pesos)
        (nan_add soma (nan_mul (parseInt_Z (Some [c]) None) (hd_error pesos)))
  end.

Definition calcularDigito (numeros : jsstring) (pesos : list Z) : option Z :=
  let soma := soma_loop numeros pesos (Some 0) in
  match soma with
  | Some soma =>
      let resto := Z.rem soma 11 in
      Some (if resto <? 2 then 0 else 11 - resto)
  | None => None
  end.

Definition calcularDigitoCNPJ := calcularDigito.

(** [a !== b] and [a === b] on integer-or-[NaN] values: [NaN] differs from
    everything. *)
Definition strict_eq (a b : option Z) : bool :=
  match a, b with
  | Some x, Some y => x =? y
  | _, _ => false
  end.

Definition validateCPF (cpf : jsstring) : bool :=
  let cpf := strip_non_digits cpf in
  if negb (Nat.eqb (List.length cpf) 11) || repeated_digit 10 cpf then false
  else
    let pesosPrimeiroDigito := [10; 9; 8; 7; 6; 5; 4; 3; 2] in
    let primeiroDigito := calcularDigito (substring0 9 cpf) pesosPrimeiroDigito in
    if negb (strict_eq (parseInt_Z (char_at cpf 9) None) primeiroDigito) then false
    else
      let pesosSegundoDigito := [11; 10; 9; 8; 7; 6; 5; 4; 3; 2] in
      let segundoDigito := calcularDigito (substring0 10 cpf) pesosSegundoDigito in
      strict_eq (parseInt_Z (char_at cpf 10) None) segundoDigito.

Definition validateCNPJ (cnpj : jsstring) : bool :=
  let cnpj := strip_non_digits cnpj in
  if negb (Nat.eqb (List.length cnpj) 14) || repeated_digit 13 cnpj then false
  else
    let pesosPrimeiroDigito := [5; 4; 3; 2; 9; 8; 7; 6; 5; 4; 3; 2] in
    let primeiroDigito :=
      calcularDigitoCNPJ (substring0 12 cnpj) pesosPrimeiroDigito in
    if negb (strict_eq (parseInt_Z (char_at cnpj 12) None) primeiroDigito) then false
    else
      let pesosSegundoDigito := [6; 5; 4; 3; 2; 9; 8; 7; 6; 5; 4; 3; 2] in
      let segundoDigito :=
        calcularDigitoCNPJ (substring0 13 cnpj) pesosSegundoDigito in
      strict_eq (parseInt_Z (char_at cnpj 13) None) segundoDigito.

(** ** [parseFloat]

    The longest prefix of the trimmed string that is a [StrDecimalLiteral]:
    a sign, then [Infinity] or decimal digits with an optional fraction and
    an optional exponent.  The decimal value is rounded once, to the nearest
    binary64 value. *)

Fixpoint decimal_digits (s : jsstring) : list Z * jsstring :=
  match s with
  | c :: rest =>
      if is_digit c then
        let '(ds, rest') := decimal_digits rest in (Z.of_N c - 48 :: ds, rest')
      else ([], s)
  | [] => ([], [])
  end.

Fixpoint starts_with (p s : jsstring) : bool :=
  match p, s with
  | [], _ => true
  | a :: p', b :: s' => N.eqb a b && starts_with p' s'
  | _ :: _, [] => false
  end.

(** The binary64 value nearest to [m * 10 ^ k], for [0 <= m]; the quotient of
    two integers is rounded by [SFdiv], whose core takes mantissas of any
    size. *)
Definition number_of_decimal (neg : bool) (m k : Z) : number :=
  match m with
  | Zpos p =>
      if 0 <=? k then number_of_Z neg ((if neg then - m else m) * 10 ^ k)
      else
        match 10 ^ (- k) with
        | Zpos q => SFdiv prec emax (S754_finite neg p 0) (S754_finite false q 0)
        | _ => NaN
        end
  | _ => S754_zero neg
  end.

(** The value of an [ExponentPart] at the head of [s], [0] when there is
    none. *)
Definition exponent_part (s : jsstring) : Z :=
  match s with
  | c :: rest =>
      if N.eqb c 101 || N.eqb c 69 then
        let '(eneg, rest') := strip_sign rest in
        match decimal_digits rest' with
        | ([], _) => 0
        | (ds, _) => if eneg then - radix_value 10 ds else radix_value 10 ds
        end
      else 0
  | [] => 0
  end.

Definition parseFloat (s : jsstring) : number :=
  let '(neg, str) := strip_sign (trim_start s) in
  if starts_with (lit "Infinity") str then S754_infinity neg
  else
    let '(int_part, rest) := decimal_digits str in
    let '(frac_part, rest) :=
      match rest with
      | 46%N :: rest' => decimal_digits rest'
      | _ => ([], rest)
      end in
    match int_part ++ frac_part with
    | [] => NaN
    | ds =>
        number_of_decimal neg (radix_value 10 ds)
          (exponent_part rest - Z.of_nat (List.length frac_part))
    end.

(** ** [Intl.NumberFormat] with [style: 'currency']

    The formatter belongs to the runtime.  What it takes from the locale
    data, and how it rounds a magnitude to a number of fraction digits, is
    the record below; [pt_BR_BRL] is locale [pt-BR] with currency [BRL]. *)

Record currency_format := {
  currency_prefix : jsstring;
  minus_sign : jsstring;
  group_separator : code_unit;
  decimal_separator : code_unit;
  nan_symbol : jsstring;
  infinity_symbol : jsstring;
  (** [to_raw_fixed f m e]: the integer [n] for which [n / 10 ^ f] is the
      rounding of [m * 2 ^ e] to [f] fraction digits. *)
  to_raw_fixed : nat -> positive -> Z -> Z
}.

(** The formatter starts from the shortest decimal of the number, the one
    [Number::toString] prints: the decimal [s * 10 ^ p] with the fewest
    digits among those that [parseFloat] reads back as [m * 2 ^ e], and
    among these the closest to it.

    A decimal reads back as [m * 2 ^ e] when it lies between the midpoints
    to the two neighbouring binary64 values, the midpoints included when [m]
    is even (ties go to the even mantissa).  In units of [2 ^ (e - 2)] the
    number is [4 * m], the upper midpoint [4 * m + 2], and the lower one
    [4 * m - 2], or [4 * m - 1] when [m * 2 ^ e] is a power of two, whose
    lower neighbour is twice as close. *)

(** The [s] for which [s * 10 ^ p] reads back as [m * 2 ^ e], the closest to
    it when there are several, [None] when there is none. *)
Definition decimal_candidate (m : positive) (e p : Z) : option Z :=
  let e2 := e - 2 in
  let scaled (x : Z) := x * 2 ^ Z.max e2 0 * 10 ^ Z.max (- p) 0 in
  let unit := 10 ^ Z.max p 0 * 2 ^ Z.max (- e2) 0 in
  let value := scaled (4 * Zpos m) in
  let upper := scaled (4 * Zpos m + 2) in
  let lower :=
    if (Zpos m =? 4503599627370496) && (-1074 <? e)
    then scaled (4 * Zpos m - 1)
    else scaled (4 * Zpos m - 2) in
  let inclusive := Z.even (Zpos m) in
  let s_max := if inclusive then upper / unit else (upper - 1) / unit in
  let s_min := if inclusive then (lower + unit - 1) / unit else lower / unit + 1 in
  if s_min <=? s_max then
    let q := value / unit in
    let r := value mod unit in
    let nearest :=
      if 2 * r <? unit then q
      else if unit <? 2 * r then q + 1
      else if Z.even q then q else q + 1 in
    Some (Z.max s_min (Z.min s_max nearest))
  else None.

(** The candidates for [p], [p - 1], ...: the first one found has the
    largest power of ten, so the fewest digits. *)
Fixpoint shortest_search (fuel : nat) (m : positive) (e p : Z) : option (Z * Z) :=
  match fuel with
  | O => None
  | S fuel' =>
      match decimal_candidate m e p with
      | Some s => Some (s, p)
      | None => shortest_search fuel' m e (p - 1)
      end
  end.

(** The search starts at a power of ten above the number: the number is
    below [2 ^ k], and [10 ^ p0] is at least [2 ^ k] (30102 / 100000 is below
    the logarithm of 2 in base 10, 30103 / 100000 above it).  It ends at the
    latest at the power of ten of the exact decimal expansion, [min e 0]. *)
Definition shortest_decimal (m : positive) (e : Z) : Z * Z :=
  let k := Z.log2 (Zpos m) + 1 + e in
  let p0 := (if 0 <=? k then k * 30103 / 100000 else k * 30102 / 100000) + 1 in
  let p_min := Z.min e 0 in
  match shortest_search (Z.to_nat (p0 - p_min + 1)) m e p0 with
  | Some sp => sp
  | None => (Zpos m * 2 ^ Z.max e 0 * 5 ^ Z.max (- e) 0, p_min)
  end.

(** The shortest decimal of [m * 2 ^ e], times [10 ^ f], rounded to an
    integer, a tie going away from zero (rounding mode [halfExpand], the
    default). *)
Definition scaled_magnitude (f : nat) (m : positive) (e : Z) : Z :=
  let '(s, p) := shortest_decimal m e in
  let k := p + Z.of_nat f in
  if 0 <=? k then s * 10 ^ k
  else
    let d := 10 ^ (- k) in
    let q := s / d in
    if d <=? 2 * (s mod d) then q + 1 else q.

Definition pt_BR_BRL : currency_format := {|
  currency_prefix := lit "R$" ++ [160%N];
  minus_sign := lit "-";
  group_separator := 46%N;
  decimal_separator := 44%N;
  nan_symbol := lit "NaN";
  infinity_symbol := [8734%N];
  to_raw_fixed := scaled_magnitude
|}.

Fixpoint uint_codes (u : Decimal.uint) : jsstring :=
  match u with
  | Decimal.Nil => []
  | Decimal.D0 u => 48%N :: uint_codes u
  | Decimal.D1 u => 49%N :: uint_codes u
  | Decimal.D2 u => 50%N :: uint_codes u
  | Decimal.D3 u => 51%N :: uint_codes u
  | Decimal.D4 u => 52%N :: uint_codes u
  | Decimal.D5 u => 53%N :: uint_codes u
  | Decimal.D6 u => 54%N :: uint_codes u
  | Decimal.D7 u => 55%N :: uint_codes u
  | Decimal.D8 u => 56%N :: uint_codes u
  | Decimal.D9 u => 57%N :: uint_codes u
  end.

(** The decimal digits of a natural number, without leading zero. *)
Definition decimal_of_Z (z : Z) : jsstring := uint_codes (N.to_uint (Z.to_N z)).

(** The last [f] decimal digits of [z], with leading zeros. *)
Fixpoint fraction_digits (f : nat) (z : Z) : jsstring :=
  match f with
  | O => []
  | S f' => fraction_digits f' (z / 10) ++ [Z.to_N (48 + z mod 10)]
  end.

(** Groups of three digits from the right, [rdigits] being the digits in
    reverse order and [n] the number of digits already in the current
    group. *)
Fixpoint group_rev (sep : code_unit) (n : nat) (rdigits : jsstring) : jsstring :=
  match rdigits with
  | [] => []
  | d :: rest =>
      match n with
      | 3%nat => sep :: d :: group_rev sep 1 rest
      | _ => d :: group_rev sep (S n) rest
      end
  end.

Definition grouped (sep : code_unit) (digits : jsstring) : jsstring :=
  rev (group_rev sep 0 (rev digits)).

Definition format_magnitude (sym : currency_format) (f : nat) (scaled : Z)
  : jsstring :=
  grouped (group_separator sym) (decimal_of_Z (scaled / 10 ^ Z.of_nat f))
  ++ match f with
     | O => []
     | _ => decimal_separator sym :: fraction_digits f scaled
     end.

(** [new Intl.NumberFormat(locale, {style: 'currency', currency,
    minimumFractionDigits: f, maximumFractionDigits: f}).format(x)]. *)
Definition format_currency_number (sym : currency_format) (f : nat) (x : number)
  : jsstring :=
  let sign (s : bool) := if s then minus_sign sym else [] in
  match x with
  | S754_nan => currency_prefix sym ++ nan_symbol sym
  | S754_infinity s => sign s ++ currency_prefix sym ++ infinity_symbol sym
  | S754_zero s => sign s ++ currency_prefix sym ++ format_magnitude sym f 0
  | S754_finite s m e =>
      sign s ++ currency_prefix sym ++ format_magnitude sym f (to_raw_fixed sym f m e)
  end.

(** ** Records ([src/types.ts]) *)

Record ICSVData := {
  nrInst : jsstring;
  nrAgencia : jsstring;
  cdClient : jsstring;
  nmClient : jsstring;
  nrCpfCnpj : jsstring;
  nrContrato : jsstring;
  dtContrato : jsstring;
  qtPrestacoes : jsstring;
  vlTotal : jsstring;
  cdProduto : jsstring;
  dsProduto : jsstring;
  cdCarteira : jsstring;
  dsCarteira : jsstring;
  nrProposta : jsstring;
  nrPresta : jsstring;
  tpPresta : jsstring;
  nrSeqPre : jsstring;
  dtVctPre : jsstring;
  vlPresta : jsstring;
  vlMora : jsstring;
  vlMulta : jsstring;
  vlOutAcr : jsstring;
  vlIof : jsstring;
  vlDescon : jsstring;
  vlAtual : jsstring;
  idSituac : jsstring;
  idSitVen : jsstring
}.

(** [IData] has the fields of [ICSVData] under the same names; the
    projections carry a prime. *)
Record IData := {
  nrInst' : number;
  nrAgencia' : number;
  cdClient' : number;
  nmClient' : jsstring;
  nrCpfCnpj' : jsstring;
  nrContrato' : number;
  dtContrato' : jsstring;
  qtPrestacoes' : number;
  vlTotal' : jsstring;
  cdProduto' : number;
  dsProduto' : jsstring;
  cdCarteira' : number;
  dsCarteira' : jsstring;
  nrProposta' : number;
  nrPresta' : number;
  tpPresta' : jsstring;
  nrSeqPre' : number;
  dtVctPre' : jsstring;
  vlPresta' : jsstring;
  vlMora' : jsstring;
  vlMulta' : jsstring;
  vlOutAcr' : jsstring;
  vlIof' : jsstring;
  vlDescon' : jsstring;
  vlAtual' : jsstring;
  idSituac' : jsstring;
  idSitVen' : jsstring
}.

Record IError := {
  error : jsstring;
  data : ICSVData
}.

(** ** The class [CsvDataProcessor] *)

(** [batchSize] and [count] hold integers ([count] starts at [0] and only
    grows by one; a batch size that is not an integer is outside the
    model). *)
Record CsvDataProcessor := {
  filePath : jsstring;
  batchSize : Z;
  success_results : list IData;
  error_results : list IError;
  count : Z
}.

(** The field initialisers and the constructor; [batchSize = None] is a call
    without the second argument, and [0] is falsy. *)
Definition constructor (filePath : jsstring) (batchSize : option Z)
  : CsvDataProcessor :=
  {| filePath := filePath;
     batchSize := match batchSize with
                  | Some b => if b =? 0 then 1000 else b
                  | None => 1000
                  end;
     success_results := [];
     error_results := [];
     count := 0 |}.

Definition resetData (this : CsvDataProcessor) : CsvDataProcessor :=
  {| filePath := filePath this;
     batchSize := batchSize this;
     success_results := [];
     error_results := [];
     count := 0 |}.

(** What [console.log] has printed: a label and the array logged with it. *)
Inductive logged :=
| LoggedErrors (label : jsstring) (rows : list IError)
| LoggedData (label : jsstring) (rows : list IData).

Definition console := list logged.

Definition proccessBatch (this : CsvDataProcessor) (out : console)
  : CsvDataProcessor * console :=
  let out := out ++ [LoggedErrors (lit "Registros com erro") (error_results this)] in
  let out := out ++ [LoggedData (lit "Registros corretos") (success_results this)] in
  (resetData this, out).

Definition validateInstallments (data : ICSVData) : bool :=
  number_eq
    (number_div (parseFloat (vlTotal data)) (parseInt (qtPrestacoes data) None))
    (parseFloat (vlPresta data)).

Definition formatCurrency (value : jsstring) : jsstring :=
  format_currency_number pt_BR_BRL 2 (parseFloat value).

(** [[11, 14].includes(n)]. *)
Definition includes_11_14 (n : nat) : bool := Nat.eqb n 11 || Nat.eqb n 14.

(** [array.push(x)]: the array with [x] at its end. *)
Definition push {A : Type} (array : list A) (x : A) : list A := array ++ [x].

Definition push_error (this : CsvDataProcessor) (e : IError) : CsvDataProcessor :=
  {| filePath := filePath this;
     batchSize := batchSize this;
     success_results := success_results this;
     error_results := push (error_results this) e;
     count := count this |}.

Definition push_success (this : CsvDataProcessor) (d : IData) : CsvDataProcessor :=
  {| filePath := filePath this;
     batchSize := batchSize this;
     success_results := push (success_results this) d;
     error_results := error_results this;
     count := count this |}.

(** [this.count++]. *)
Definition incr_count (this : CsvDataProcessor) : CsvDataProcessor :=
  {| filePath := filePath this;
     batchSize := batchSize this;
     success_results := success_results this;
     error_results := error_results this;
     count := count this + 1 |}.

(** The object literal of the last statement of [proccess]: the spread
    [...data], then the fields that replace the spread ones. *)
Definition normalized (data : ICSVData) : IData :=
  {| nrInst' := parseInt (nrInst data) (Some 10);
     nrAgencia' := parseInt (nrAgencia data) (Some 10);
     cdClient' := parseInt (cdClient data) (Some 10);
     nmClient' := nmClient data;
     nrCpfCnpj' := nrCpfCnpj data;
     nrContrato' := parseInt (nrContrato data) (Some 10);
     dtContrato' := dtContrato data;
     qtPrestacoes' := parseInt (qtPrestacoes data) (Some 10);
     vlTotal' := formatCurrency (vlTotal data);
     cdProduto' := parseInt (cdProduto data) (Some 10);
     dsProduto' := dsProduto data;
     cdCarteira' := parseInt (cdCarteira data) (Some 10);
     dsCarteira' := dsCarteira data;
     nrProposta' := parseInt (nrProposta data) (Some 10);
     nrPresta' := parseInt (nrPresta data) (Some 10);
     tpPresta' := tpPresta data;
     nrSeqPre' := parseInt (nrSeqPre data) (Some 10);
     dtVctPre' := dtVctPre data;
     vlPresta' := formatCurrency (vlPresta data);
     vlMora' := formatCurrency (vlMora data);
     vlMulta' := formatCurrency (vlMulta data);
     vlOutAcr' := formatCurrency (vlOutAcr data);
     vlIof' := formatCurrency (vlIof data);
     vlDescon' := formatCurrency (vlDescon data);
     vlAtual' := formatCurrency (vlAtual data);
     idSituac' := idSituac data;
     idSitVen' := idSitVen data |}.

(** [proccess] changes the instance; the value it returns (the new length of
    [error_results] on a rejection) is not used by its caller and is left
    out. *)
Definition proccess (this : CsvDataProcessor) (data : ICSVData)
  : CsvDataProcessor :=
  let this := incr_count this in
  if negb (includes_11_14 (List.length (strip_non_digits (nrCpfCnpj data)))) then
    push_error this {| error := lit "Invalid CPF or CNPJ"; data := data |}
  else if Nat.eqb (List.length (nrCpfCnpj data)) 11
          && negb (validateCPF (nrCpfCnpj data)) then
    push_error this {| error := lit "Invalid CPF"; data := data |}
  else if Nat.eqb (List.length (nrCpfCnpj data)) 14
          && negb (validateCNPJ (nrCpfCnpj data)) then
    push_error this {| error := lit "Invalid CNPJ"; data := data |}
  else if negb (validateInstallments data) then
    push_error this {| error := lit "Invalid Installments"; data := data |}
  else
    push_success this (normalized data).

(** ** The stream of rows ([getCsvData], [run])

    The stream calls the ['data'] handler once per row, in order, then the
    ['end'] handler once. *)

Definition on_data (data : ICSVData) (w : CsvDataProcessor * console)
  : CsvDataProcessor * console :=
  let '(this, out) := w in
  let this := proccess this data in
  if count this >=? batchSize this then proccessBatch this out
  else (this, out).

Definition on_end (w : CsvDataProcessor * console) : CsvDataProcessor * console :=
  let '(this, out) := w in
  proccessBatch this out.

(** The ['data'] events of the rows, without the ['end'] event. *)
Definition feed (rows : list ICSVData) (w : CsvDataProcessor * console)
  : CsvDataProcessor * console :=
  fold_left (fun w data => on_data data w) rows w.

Definition getCsvData (rows : list ICSVData) (w : CsvDataProcessor * console)
  : CsvDataProcessor * console :=
  on_end (feed rows w).

Definition run (rows : list ICSVData) (w : CsvDataProcessor * console)
  : CsvDataProcessor * console :=
  let '(this, out) := w in
  getCsvData rows (resetData this, out).

(** The number of flushes a console shows: [proccessBatch] logs the rejected
    rows once per call. *)
Definition flushes (out : console) : nat :=
  List.length (filter (fun l => match l with LoggedErrors _ _ => true | _ => false end) out).

(** ** Definitions used to state the properties *)

(** The check-digit rule, as the specification words it. *)

Module Rule.

(** The digits of a taxpayer id: what is left once every non-digit is
    removed, each digit as its value. *)
Definition digit_value (c : code_unit) : Z := Z.of_N c - 48.

Definition digits_of (s : jsstring) : list Z :=
  List.map digit_value (strip_non_digits s).

Fixpoint weighted_sum (digits weights : list Z) : Z :=
  match digits, weights with
  | d :: digits', w :: weights' => d * w + weighted_sum digits' weights'
  | _, _ => 0
  end.

Definition check_digit (sum : Z) : Z :=
  let remainder := sum mod 11 in
  if remainder <? 2 then 0 else 11 - remainder.

Definition all_identical (ds : list Z) : Prop :=
  forall x y, In x ds -> In y ds -> x = y.

(** [n] digits, not all identical, and the two last digits are the check
    digits of the digits before them. *)
Definition valid_id (n : nat) (w1 w2 : list Z) (ds : list Z) : Prop :=
  List.length ds = n
  /\ ~ all_identical ds
  /\ nth_error ds (n - 2) = Some (check_digit (weighted_sum (firstn (n - 2) ds) w1))
  /\ nth_error ds (n - 1) = Some (check_digit (weighted_sum (firstn (n - 1) ds) w2)).

Definition cpf_weights_1 : list Z := [10; 9; 8; 7; 6; 5; 4; 3; 2].
Definition cpf_weights_2 : list Z := [11; 10; 9; 8; 7; 6; 5; 4; 3; 2].
Definition cnpj_weights_1 : list Z := [5; 4; 3; 2; 9; 8; 7; 6; 5; 4; 3; 2].
Definition cnpj_weights_2 : list Z := [6; 5; 4; 3; 2; 9; 8; 7; 6; 5; 4; 3; 2].

Definition valid_cpf (s : jsstring) : Prop :=
  valid_id 11 cpf_weights_1 cpf_weights_2 (digits_of s).

Definition valid_cnpj (s : jsstring) : Prop :=
  valid_id 14 cnpj_weights_1 cnpj_weights_2 (digits_of s).

End Rule.

(** The common shape of [validateCPF] and [validateCNPJ]: [n] digits, the
    weights [w1] and [w2]. *)
Definition validate_shape (n : nat) (w1 w2 : list Z) (s : jsstring) : bool :=
  let s := strip_non_digits s in
  if negb (Nat.eqb (List.length s) n) || repeated_digit (n - 1) s then false
  else
    if negb (strict_eq (parseInt_Z (char_at s (n - 2)) None)
               (calcularDigito (substring0 (n - 2) s) w1))
    then false
    else strict_eq (parseInt_Z (char_at s (n - 1)) None)
           (calcularDigito (substring0 (n - 1) s) w2).

(** The format gate of [proccess]: the stripped taxpayer id has 11 or 14
    digits. *)
Definition format_gate (data : ICSVData) : bool :=
  includes_11_14 (List.length (strip_non_digits (nrCpfCnpj data))).

(** [proccess] rejects [data] with [reason]: the counter is incremented and
    one entry, [reason] with [data] itself, is pushed on [error_results]. *)
Definition rejects (this : CsvDataProcessor) (data : ICSVData) (reason : jsstring)
  : Prop :=
  proccess this data
  = push_error (incr_count this) {| error := reason; data := data |}.

(** [proccess] accepts [data]: the counter is incremented and the normalized
    record is pushed on [success_results]. *)
Definition accepts (this : CsvDataProcessor) (data : ICSVData) : Prop :=
  proccess this data = push_success (incr_count this) (normalized data).

(** The invariant of the batch state. *)
Definition count_invariant (this : CsvDataProcessor) : Prop :=
  count this
  = Z.of_nat (List.length (success_results this))
    + Z.of_nat (List.length (error_results this)).

Definition is_empty (this : CsvDataProcessor) : Prop :=
  success_results this = [] /\ error_results this = [] /\ count this = 0.

(** The checks of the per-record algorithm, in the order of the
    specification, with the reason each one records. *)
Module Pipeline.

Inductive check := FormatGate | Checksum | InstallmentConsistency.

Definition order : list check := [FormatGate; Checksum; InstallmentConsistency].

Definition passes (data : ICSVData) (c : check) : bool :=
  match c with
  | FormatGate => format_gate data
  | Checksum =>
      if Nat.eqb (List.length (nrCpfCnpj data)) 11 then validateCPF (nrCpfCnpj data)
      else if Nat.eqb (List.length (nrCpfCnpj data)) 14 then validateCNPJ (nrCpfCnpj data)
      else true
  | InstallmentConsistency => validateInstallments data
  end.

Definition reason (data : ICSVData) (c : check) : jsstring :=
  match c with
  | FormatGate => lit "Invalid CPF or CNPJ"
  | Checksum =>
      if Nat.eqb (List.length (nrCpfCnpj data)) 11 then lit "Invalid CPF"
      else lit "Invalid CNPJ"
  | InstallmentConsistency => lit "Invalid Installments"
  end.

Definition first_failing (data : ICSVData) : option check :=
  find (fun c => negb (passes data c)) order.

Definition reasons : list jsstring :=
  [lit "Invalid CPF or CNPJ"; lit "Invalid CPF"; lit "Invalid CNPJ";
   lit "Invalid Installments"].

End Pipeline.

(** The designated fields of the normalized record, each with the raw field
    it comes from. *)
Definition integer_fields : list ((ICSVData -> jsstring) * (IData -> number)) :=
  [(nrInst, nrInst'); (nrAgencia, nrAgencia'); (cdClient, cdClient');
   (nrContrato, nrContrato'); (qtPrestacoes, qtPrestacoes');
   (cdProduto, cdProduto'); (cdCarteira, cdCarteira');
   (nrProposta, nrProposta'); (nrPresta, nrPresta'); (nrSeqPre, nrSeqPre')].

Definition monetary_fields : list ((ICSVData -> jsstring) * (IData -> jsstring)) :=
  [(vlTotal, vlTotal'); (vlPresta, vlPresta'); (vlMora, vlMora');
   (vlMulta, vlMulta'); (vlOutAcr, vlOutAcr'); (vlIof, vlIof');
   (vlDescon, vlDescon'); (vlAtual, vlAtual')].

Definition carried_fields : list ((ICSVData -> jsstring) * (IData -> jsstring)) :=
  [(nmClient, nmClient'); (nrCpfCnpj, nrCpfCnpj'); (dtContrato, dtContrato');
   (dsProduto, dsProduto'); (dsCarteira, dsCarteira'); (tpPresta, tpPresta');
   (dtVctPre, dtVctPre'); (idSituac, idSituac'); (idSitVen, idSitVen')].

(** A string that ends with the decimal separator and exactly two digits,
    the separator occurring nowhere else. *)
Definition two_fraction_digits (sep : code_unit) (s : jsstring) : bool :=
  match rev s with
  | d2 :: d1 :: c :: body =>
      is_digit d2 && is_digit d1 && N.eqb c sep && negb (existsb (N.eqb sep) body)
  | _ => false
  end.

Definition is_finite (x : number) : bool :=
  match x with
  | S754_zero _ | S754_finite _ _ _ => true
  | S754_infinity _ | S754_nan => false
  end.

(** A row for the examples: every field empty but the four the validations
    read. *)
Definition row (id total installments installment : string) : ICSVData :=
  {| nrInst := []; nrAgencia := []; cdClient := []; nmClient := [];
     nrCpfCnpj := lit id;
     nrContrato := []; dtContrato := [];
     qtPrestacoes := lit installments;
     vlTotal := lit total;
     cdProduto := []; dsProduto := []; cdCarteira := []; dsCarteira := [];
     nrProposta := []; nrPresta := []; tpPresta := []; nrSeqPre := [];
     dtVctPre := [];
     vlPresta := lit installment;
     vlMora := []; vlMulta := []; vlOutAcr := []; vlIof := []; vlDescon := [];
     vlAtual := []; idSituac := []; idSitVen := [] |}.

(** A row as the stream delivers it, with an empty late-fee column. *)
Definition sample_row : ICSVData :=
  {| nrInst := lit "533";
     nrAgencia := lit "32";
     cdClient := lit "56133";
     nmClient := lit "CLIENTE 1";
     nrCpfCnpj := lit "11144477735";
     nrContrato := lit "733067";
     dtContrato := lit "20221227";
     qtPrestacoes := lit "10";
     vlTotal := lit "1000.00";
     cdProduto := lit "777";
     dsProduto := lit "CDC PESSOA JURIDICA";
     cdCarteira := lit "17";
     dsCarteira := lit "CREDITO DIRETO AO CONSUMIDOR";
     nrProposta := lit "798586";
     nrPresta := lit "2";
     tpPresta := lit "Original";
     nrSeqPre := lit "0";
     dtVctPre := lit "20220406";
     vlPresta := lit "100.00";
     vlMora := [];
     vlMulta := lit "0.00";
     vlOutAcr := lit "0";
     vlIof := lit "0";
     vlDescon := lit "0";
     vlAtual := lit "100.00";
     idSituac := lit "Aberta";
     idSitVen := lit "Vencida" |}.

(** [proccess] on each row in turn, without any flush. *)
Definition proccess_all (rows : list ICSVData) (this : CsvDataProcessor)
  : CsvDataProcessor :=
  fold_left proccess rows this.

(** What a console shows of the rejected and of the accepted rows, over all
    its entries, in the order they were logged. *)
Definition logged_errors (out : console) : list IError :=
  flat_map (fun l => match l with LoggedErrors _ rows => rows | LoggedData _ _ => [] end) out.

Definition logged_data (out : console) : list IData :=
  flat_map (fun l => match l with LoggedData _ rows => rows | LoggedErrors _ _ => [] end) out.

(** What one row adds to each collection. *)
Definition rejection (data : ICSVData) : list IError :=
  match Pipeline.first_failing data with
  | Some c => [{| error := Pipeline.reason data c; data := data |}]
  | None => []
  end.

Definition acceptance (data : ICSVData) : list IData :=
  match Pipeline.first_failing data with
  | Some _ => []
  | None => [normalized data]
  end.

(** The two console entries of one flush, for a batch of rejected and
    accepted rows. *)
Definition batch_log (batch : list IError * list IData) : console :=
  [LoggedErrors (lit "Registros com erro") (fst batch);
   LoggedData (lit "Registros corretos") (snd batch)].

(** * Check-digit validators *)

Section CheckDigits.

Import Rule.

Lemma is_digit_range (c : code_unit) :
  is_digit c = true -> (48 <= c <= 57)%N.
Proof.
  unfold is_digit. rewrite andb_true_iff, !N.leb_le. tauto.
Qed.

Lemma digit_value_range (c : code_unit) :
  is_digit c = true -> 0 <= digit_value c <= 9.
Proof.
  intros H. apply is_digit_range in H. unfold digit_value. lia.
Qed.

Lemma digit_value_inj (a b : code_unit) :
  digit_value a = digit_value b -> a = b.
Proof. unfold digit_value. lia. Qed.

Lemma strip_non_digits_digits (s : jsstring) :
  Forall (fun c => is_digit c = true) (strip_non_digits s).
Proof.
  apply Forall_forall. intros c Hc.
  apply filter_In in Hc. tauto.
Qed.

(** [parseInt] of a one-digit string is the value of the digit. *)
Lemma parseInt_Z_digit (c : code_unit) :
  is_digit c = true -> parseInt_Z (Some [c]) None = Some (digit_value c).
Proof.
  intros H. apply is_digit_range in H.
  assert (Hc : In c [48; 49; 50; 51; 52; 53; 54; 55; 56; 57]%N).
  { simpl. lia. }
  simpl in Hc.
  repeat (destruct Hc as [<- | Hc]; [reflexivity |]).
  contradiction.
Qed.

Lemma parseInt_Z_char_at (s : jsstring) (i : nat) (c : code_unit) :
  nth_error s i = Some c -> is_digit c = true ->
  parseInt_Z (char_at s i) None = Some (digit_value c).
Proof.
  intros Hn Hc. unfold char_at. rewrite Hn. now apply parseInt_Z_digit.
Qed.

Lemma soma_loop_weighted_sum (numeros : jsstring) :
  forall (pesos : list Z) (a : Z),
    Forall (fun c => is_digit c = true) numeros ->
    (List.length numeros <= List.length pesos)%nat ->
    soma_loop numeros pesos (Some a)
    = Some (a + weighted_sum (List.map digit_value numeros) pesos).
Proof.
  induction numeros as [| c numeros IH]; intros pesos a Hd Hl.
  - simpl. f_equal. lia.
  - inversion Hd as [| ? ? Hc Hd']; subst.
    destruct pesos as [| w pesos]; [simpl in Hl; lia |].
    cbn [soma_loop tl hd_error].
    rewrite (parseInt_Z_digit c Hc). cbn [nan_mul nan_add].
    rewrite IH; [| assumption | simpl in Hl; lia].
    cbn [List.map weighted_sum]. f_equal. lia.
Qed.

Lemma weighted_sum_nonneg (ds : list Z) :
  forall ws, Forall (fun d => 0 <= d) ds -> Forall (fun w => 0 <= w) ws ->
             0 <= weighted_sum ds ws.
Proof.
  induction ds as [| d ds IH]; intros ws Hd Hw; [simpl; lia |].
  destruct ws as [| w ws]; [simpl; lia |].
  inversion Hd; inversion Hw; subst. simpl.
  specialize (IH ws ltac:(assumption) ltac:(assumption)). nia.
Qed.

Lemma digit_values_nonneg (s : jsstring) :
  Forall (fun c => is_digit c = true) s ->
  Forall (fun d => 0 <= d) (List.map digit_value s).
Proof.
  intros H. apply Forall_map. eapply Forall_impl; [| exact H].
  intros c Hc. apply digit_value_range in Hc. cbn. lia.
Qed.

(** The sums stay far below 2 ^ 53, where every integer is a binary64
    value: adding and multiplying in [Z] is what the program computes. *)
Lemma weighted_sum_bound (ds : list Z) :
  forall ws, Forall (fun d => 0 <= d <= 9) ds -> Forall (fun w => 0 <= w <= 11) ws ->
             weighted_sum ds ws <= 99 * Z.of_nat (List.length ds).
Proof.
  induction ds as [| d ds IH]; intros ws Hd Hw; [simpl; lia |].
  destruct ws as [| w ws]; [cbn [weighted_sum]; lia |].
  inversion Hd; inversion Hw; subst. cbn [weighted_sum List.length].
  specialize (IH ws ltac:(assumption) ltac:(assumption)). nia.
Qed.

(** The local function of the validators computes the check digit of the
    weighted sum. *)
Lemma calcularDigito_check_digit (numeros : jsstring) (pesos : list Z) :
  Forall (fun c => is_digit c = true) numeros ->
  (List.length numeros <= List.length pesos)%nat ->
  Forall (fun w => 0 <= w) pesos ->
  calcularDigito numeros pesos
  = Some (check_digit (weighted_sum (List.map digit_value numeros) pesos)).
Proof.
  intros Hd Hl Hw. unfold calcularDigito.
  rewrite soma_loop_weighted_sum by assumption.
  rewrite Z.add_0_l. unfold check_digit.
  rewrite Z.rem_mod_nonneg; [reflexivity | | lia].
  apply weighted_sum_nonneg; [now apply digit_values_nonneg | assumption].
Qed.

(** The regular expression of the validators holds of a string of [k + 1]
    digits exactly when its digits are all the same. *)
Lemma repeated_digit_all_identical (k : nat) (s : jsstring) :
  Forall (fun c => is_digit c = true) s ->
  List.length s = S k ->
  repeated_digit k s = true <-> all_identical (List.map digit_value s).
Proof.
  intros Hd Hl. destruct s as [| c rest]; [discriminate |].
  inversion Hd as [| ? ? Hc Hrest]; subst.
  injection Hl as Hl. unfold repeated_digit.
  rewrite Hc, Hl, Nat.eqb_refl, andb_true_r, andb_true_l, forallb_forall.
  split.
  - intros H x y Hx Hy.
    assert (Hall : forall z, In z (List.map digit_value (c :: rest)) ->
                             z = digit_value c).
    { intros z Hz. apply in_map_iff in Hz. destruct Hz as [b [<- Hb]].
      destruct Hb as [<- | Hb]; [reflexivity |].
      apply H, N.eqb_eq in Hb. now subst. }
    rewrite (Hall x Hx), (Hall y Hy). reflexivity.
  - intros H b Hb. apply N.eqb_eq, digit_value_inj.
    apply H; apply in_map; [now left | now right].
Qed.

Lemma check_position (s : jsstring) (i : nat) (w : list Z) :
  Forall (fun c => is_digit c = true) s ->
  (i < List.length s)%nat -> (i <= List.length w)%nat ->
  Forall (fun x => 0 <= x) w ->
  strict_eq (parseInt_Z (char_at s i) None) (calcularDigito (substring0 i s) w) = true
  <-> nth_error (List.map digit_value s) i
      = Some (check_digit (weighted_sum (firstn i (List.map digit_value s)) w)).
Proof.
  intros Hd Hi Hw Hpos.
  destruct (nth_error s i) as [c |] eqn:Hn;
    [| apply nth_error_None in Hn; lia].
  assert (Hc : is_digit c = true).
  { rewrite Forall_forall in Hd. apply Hd. eapply nth_error_In; eauto. }
  rewrite (parseInt_Z_char_at s i c Hn Hc).
  unfold substring0.
  rewrite calcularDigito_check_digit; [ | | | assumption].
  - rewrite (map_nth_error digit_value i s Hn), firstn_map. cbn [strict_eq].
    rewrite Z.eqb_eq. split; [intros ->; reflexivity | congruence].
  - rewrite Forall_forall in *. intros x Hx. apply Hd.
    rewrite <- (firstn_skipn i s). apply in_or_app. now left.
  - rewrite length_firstn. lia.
Qed.

Lemma validate_shape_valid_id (n : nat) (w1 w2 : list Z) (s : jsstring) :
  (2 <= n)%nat ->
  List.length w1 = (n - 2)%nat -> List.length w2 = (n - 1)%nat ->
  Forall (fun x => 0 <= x) w1 -> Forall (fun x => 0 <= x) w2 ->
  validate_shape n w1 w2 s = true <-> valid_id n w1 w2 (digits_of s).
Proof.
  intros Hn Hw1 Hw2 Hp1 Hp2. unfold validate_shape, valid_id, digits_of.
  pose proof (strip_non_digits_digits s) as Hd.
  set (ds := strip_non_digits s) in *. clearbody ds.
  rewrite length_map.
  destruct (Nat.eqb_spec (List.length ds) n) as [Hl | Hl]; cbn [negb orb].
  2: { split; [discriminate | tauto]. }
  pose proof (repeated_digit_all_identical (n - 1) ds Hd ltac:(lia)) as Hrep.
  pose proof (check_position ds (n - 2) w1 Hd ltac:(lia) ltac:(lia) Hp1) as H1.
  pose proof (check_position ds (n - 1) w2 Hd ltac:(lia) ltac:(lia) Hp2) as H2.
  destruct (repeated_digit (n - 1) ds).
  { split; [discriminate |]. intros (_ & Hni & _). exfalso. apply Hni.
    now apply Hrep. }
  destruct (strict_eq (parseInt_Z (char_at ds (n - 2)) None)
              (calcularDigito (substring0 (n - 2) ds) w1)); cbn [negb].
  - rewrite H2. split.
    + intros H. repeat split; try assumption.
      * intros Hall. apply Hrep in Hall. discriminate.
      * now apply H1.
    + tauto.
  - split; [discriminate |]. intros (_ & _ & H & _). apply H1 in H.
    discriminate.
Qed.

End CheckDigits.

(** * The runtime functions on examples *)

Example parseInt_examples :
  parseInt (lit "10") None = number_of_Z false 10
  /\ parseInt (lit "  -12abc") (Some 10) = number_of_Z true (-12)
  /\ parseInt (lit "0x10") None = number_of_Z false 16
  /\ parseInt (lit "0x10") (Some 10) = number_of_Z false 0
  /\ parseInt (lit "-0") (Some 10) = S754_zero true
  /\ parseInt (lit "") (Some 10) = NaN
  /\ parseInt (lit "abc") (Some 10) = NaN.
Proof. repeat split; vm_compute; reflexivity. Qed.

Example parseFloat_examples :
  parseFloat (lit "1000.00") = number_of_Z false 1000
  /\ parseFloat (lit " 1e3xyz") = number_of_Z false 1000
  /\ parseFloat (lit "0.1") = S754_finite false 7205759403792794 (-56)
  /\ parseFloat (lit "-.5") = S754_finite true 4503599627370496 (-53)
  /\ parseFloat (lit "9007199254740993") = number_of_Z false 9007199254740992
  /\ parseFloat (lit "1e400") = S754_infinity false
  /\ parseFloat (lit "-Infinity") = S754_infinity true
  /\ parseFloat (lit "") = NaN
  /\ parseFloat (lit ".") = NaN
  /\ parseFloat (lit "R$ 10") = NaN.
Proof. repeat split; vm_compute; reflexivity. Qed.

(** * The claims on the validators *)

Lemma validateCPF_shape (s : jsstring) :
  validateCPF s = validate_shape 11 Rule.cpf_weights_1 Rule.cpf_weights_2 s.
Proof. reflexivity. Qed.

Lemma validateCNPJ_shape (s : jsstring) :
  validateCNPJ s = validate_shape 14 Rule.cnpj_weights_1 Rule.cnpj_weights_2 s.
Proof. reflexivity. Qed.

Lemma repeat_non_digit (c : code_unit) (n : nat) :
  is_digit c = false -> strip_non_digits (repeat c n) = [].
Proof.
  intros H. induction n as [| n IH]; [reflexivity |].
  cbn [repeat strip_non_digits filter]. rewrite H. exact IH.
Qed.

Ltac each_digit c H :=
  apply is_digit_range in H;
  let Hc := fresh "Hc" in
  assert (Hc : In c [48; 49; 50; 51; 52; 53; 54; 55; 56; 57]%N)
    by (simpl; lia);
  simpl in Hc;
  repeat (destruct Hc as [<- | Hc]; [vm_compute; reflexivity |]);
  contradiction.

(** C1. [validateCPF], on any string, holds exactly when the digits left
    after removing every non-digit are 11, not all identical, and the digits
    at positions 9 and 10 are the check digits of the weighted sums (weights
    10..2 over digits 0..8, weights 11..2 over digits 0..9; remainder modulo
    11, check digit 0 below 2 and 11 minus the remainder otherwise).  It
    accepts 11144477735, rejects 11111111111, and rejects 1114447773 followed
    by anything but 5. *)
Theorem validateCPF_spec :
  (forall s, validateCPF s = true <-> Rule.valid_cpf s)
  /\ validateCPF (lit "11144477735") = true
  /\ validateCPF (lit "11111111111") = false
  /\ (forall c, validateCPF (lit "1114447773" ++ [c]) = N.eqb c 53).
Proof.
  split; [| split; [| split]].
  - intros s. rewrite validateCPF_shape. unfold Rule.valid_cpf.
    apply validate_shape_valid_id; try reflexivity; try lia;
      repeat constructor; lia.
  - vm_compute. reflexivity.
  - vm_compute. reflexivity.
  - intros c. destruct (is_digit c) eqn:H.
    + each_digit c H.
    + assert (Hne : N.eqb c 53 = false).
      { apply N.eqb_neq. intros ->. discriminate. }
      rewrite Hne. unfold validateCPF, strip_non_digits.
      rewrite filter_app. cbn [filter]. rewrite H. reflexivity.
Qed.

(** C2. [validateCNPJ], on any string, holds exactly when the digits left
    after removing every non-digit are 14, not all identical, and the digits
    at positions 12 and 13 are the check digits of the weighted sums (weights
    5,4,3,2,9..2 over digits 0..11, weights 6,5,4,3,2,9..2 over digits
    0..12).  It accepts 11444777000161 and rejects every string made of one
    character 14 times. *)
Theorem validateCNPJ_spec :
  (forall s, validateCNPJ s = true <-> Rule.valid_cnpj s)
  /\ validateCNPJ (lit "11444777000161") = true
  /\ (forall c, validateCNPJ (repeat c 14) = false).
Proof.
  split; [| split].
  - intros s. rewrite validateCNPJ_shape. unfold Rule.valid_cnpj.
    apply validate_shape_valid_id; try reflexivity; try lia;
      repeat constructor; lia.
  - vm_compute. reflexivity.
  - intros c. destruct (is_digit c) eqn:H.
    + each_digit c H.
    + unfold validateCNPJ. rewrite repeat_non_digit by assumption. reflexivity.
Qed.

(** The formatted ids validate like their digits. *)
Example validateCPF_punctuated : validateCPF (lit "111.444.777-35") = true.
Proof. vm_compute. reflexivity. Qed.

Example validateCNPJ_punctuated : validateCNPJ (lit "11.444.777/0001-61") = true.
Proof. vm_compute. reflexivity. Qed.

(** * The per-record algorithm *)

Lemma push_error_inj (this : CsvDataProcessor) (e1 e2 : IError) :
  push_error this e1 = push_error this e2 -> e1 = e2.
Proof.
  intros H. apply (f_equal error_results) in H. cbn in H. unfold push in H.
  apply app_inv_head in H. now injection H.
Qed.

Lemma push_error_not_success (this : CsvDataProcessor) (e : IError) (n : IData) :
  push_error this e <> push_success this n.
Proof.
  intros H. apply (f_equal error_results) in H. cbn in H. unfold push in H.
  apply (f_equal (@List.length IError)) in H. rewrite length_app in H.
  simpl in H. lia.
Qed.

Lemma rejects_reason (this : CsvDataProcessor) (d : ICSVData) (r1 r2 : jsstring) :
  rejects this d r1 -> rejects this d r2 -> r1 = r2.
Proof.
  unfold rejects. intros H1 H2. rewrite H1 in H2.
  apply push_error_inj in H2. now injection H2.
Qed.

Lemma rejects_not_accepts (this : CsvDataProcessor) (d : ICSVData) (r : jsstring) :
  rejects this d r -> ~ accepts this d.
Proof.
  unfold rejects, accepts. intros H1 H2. rewrite H1 in H2.
  exact (push_error_not_success _ _ _ H2).
Qed.

(** The outcome of [proccess], by the checks it makes in turn. *)
Lemma proccess_outcome (this : CsvDataProcessor) (d : ICSVData) :
  (format_gate d = false /\ rejects this d (lit "Invalid CPF or CNPJ"))
  \/ (format_gate d = true /\ List.length (nrCpfCnpj d) = 11%nat
      /\ validateCPF (nrCpfCnpj d) = false /\ rejects this d (lit "Invalid CPF"))
  \/ (format_gate d = true /\ List.length (nrCpfCnpj d) = 14%nat
      /\ validateCNPJ (nrCpfCnpj d) = false /\ rejects this d (lit "Invalid CNPJ"))
  \/ (format_gate d = true /\ Pipeline.passes d Pipeline.Checksum = true
      /\ validateInstallments d = false
      /\ rejects this d (lit "Invalid Installments"))
  \/ (format_gate d = true /\ Pipeline.passes d Pipeline.Checksum = true
      /\ validateInstallments d = true /\ accepts this d).
Proof.
  unfold rejects, accepts, proccess, format_gate, Pipeline.passes.
  destruct (includes_11_14 _); cbn [negb]; [| now left].
  right.
  destruct (Nat.eqb_spec (List.length (nrCpfCnpj d)) 11) as [H11 | H11].
  - rewrite H11. cbn [Nat.eqb andb].
    destruct (validateCPF (nrCpfCnpj d)); cbn [negb];
      [| left; repeat split; reflexivity].
    right; right.
    destruct (validateInstallments d); cbn [negb]; [right | left];
      repeat split; reflexivity.
  - cbn [andb].
    destruct (Nat.eqb_spec (List.length (nrCpfCnpj d)) 14) as [H14 | H14].
    + cbn [andb]. destruct (validateCNPJ (nrCpfCnpj d)); cbn [negb];
        [| right; left; repeat split; assumption || reflexivity].
      right; right.
      destruct (validateInstallments d); cbn [negb]; [right | left];
        repeat split; reflexivity.
    + cbn [andb]. right; right.
      destruct (validateInstallments d); cbn [negb]; [right | left];
        repeat split; reflexivity.
Qed.

Ltac other_reason H1 H2 :=
  let E := fresh in
  pose proof (rejects_reason _ _ _ _ H1 H2) as E; vm_compute in E; discriminate E.

(** C3. Once the format gate has passed, [proccess] rejects with "Invalid
    CPF" exactly when the original taxpayer-id string has length 11 and
    [validateCPF] fails on it, and with "Invalid CNPJ" exactly when the
    original string has length 14 and [validateCNPJ] fails on it. *)
Theorem proccess_checksum_branch (this : CsvDataProcessor) (d : ICSVData) :
  format_gate d = true ->
  (rejects this d (lit "Invalid CPF")
   <-> List.length (nrCpfCnpj d) = 11%nat /\ validateCPF (nrCpfCnpj d) = false)
  /\ (rejects this d (lit "Invalid CNPJ")
      <-> List.length (nrCpfCnpj d) = 14%nat /\ validateCNPJ (nrCpfCnpj d) = false).
Proof.
  intros Hgate.
  destruct (proccess_outcome this d)
    as [[Hg _] | [(_ & Hl & Hv & Hr) | [(_ & Hl & Hv & Hr) | [(_ & Hc & _ & Hr) | (_ & Hc & _ & Hr)]]]].
  - congruence.
  - split; split.
    + intros _. now split.
    + intros _. exact Hr.
    + intros H. other_reason Hr H.
    + intros [Hl' _]. lia.
  - split; split.
    + intros H. other_reason Hr H.
    + intros [Hl' _]. lia.
    + intros _. now split.
    + intros _. exact Hr.
  - unfold Pipeline.passes in Hc. split; split.
    + intros H. other_reason Hr H.
    + intros [Hl Hv]. rewrite Hl in Hc. cbn in Hc. congruence.
    + intros H. other_reason Hr H.
    + intros [Hl Hv]. rewrite Hl in Hc. cbn in Hc. congruence.
  - unfold Pipeline.passes in Hc. split; split.
    + intros H. destruct (rejects_not_accepts _ _ _ H Hr).
    + intros [Hl Hv]. rewrite Hl in Hc. cbn in Hc. congruence.
    + intros H. destruct (rejects_not_accepts _ _ _ H Hr).
    + intros [Hl Hv]. rewrite Hl in Hc. cbn in Hc. congruence.
Qed.

Lemma proccess_checksum_branch_witness :
  format_gate (row "11144477734" "1000.00" "10" "100.00") = true
  /\ rejects (constructor [] None) (row "11144477734" "1000.00" "10" "100.00")
       (lit "Invalid CPF").
Proof.
  split; [reflexivity |].
  apply (proj1 (proccess_checksum_branch (constructor [] None)
                  (row "11144477734" "1000.00" "10" "100.00") eq_refl)).
  split; vm_compute; reflexivity.
Defined.

(** A CPF written with its punctuation has 14 characters: it passes the
    gate, takes the CNPJ branch and is rejected there. *)
Example punctuated_cpf_takes_cnpj_branch (this : CsvDataProcessor) :
  validateCPF (lit "111.444.777-35") = true
  /\ rejects this (row "111.444.777-35" "1000.00" "10" "100.00")
       (lit "Invalid CNPJ").
Proof.
  split; [vm_compute; reflexivity |].
  destruct (proccess_outcome this (row "111.444.777-35" "1000.00" "10" "100.00"))
    as [[Hg _] | [(_ & Hl & _) | [(_ & _ & _ & Hr) | [(_ & Hc & _) | (_ & Hc & _)]]]];
    try (vm_compute in Hg; discriminate);
    try (vm_compute in Hl; discriminate);
    try (vm_compute in Hc; discriminate).
  exact Hr.
Qed.

(** C4. When the stripped taxpayer id has 11 or 14 digits and the original
    string has neither length 11 nor length 14, the outcome of [proccess]
    is that of [validateInstallments] alone, whatever the digits are: the
    record is never rejected with "Invalid CPF" or "Invalid CNPJ", it is
    accepted when [validateInstallments] holds and rejected with "Invalid
    Installments" when it does not. *)
Theorem proccess_skips_checksum (this : CsvDataProcessor) (d : ICSVData) :
  format_gate d = true ->
  List.length (nrCpfCnpj d) <> 11%nat ->
  List.length (nrCpfCnpj d) <> 14%nat ->
  ~ rejects this d (lit "Invalid CPF")
  /\ ~ rejects this d (lit "Invalid CNPJ")
  /\ (validateInstallments d = true -> accepts this d)
  /\ (validateInstallments d = false ->
      rejects this d (lit "Invalid Installments")).
Proof.
  intros Hg H11 H14.
  destruct (proccess_outcome this d)
    as [[Hg' _] | [(_ & Hl & _) | [(_ & Hl & _) | [(_ & _ & Hi & Hr) | (_ & _ & Hi & Ha)]]]];
    try congruence.
  - repeat split.
    + intros H. other_reason Hr H.
    + intros H. other_reason Hr H.
    + congruence.
    + intros _. exact Hr.
  - repeat split.
    + intros H. exact (rejects_not_accepts _ _ _ H Ha).
    + intros H. exact (rejects_not_accepts _ _ _ H Ha).
    + intros _. exact Ha.
    + congruence.
Qed.

(** The id 1-1111111111 has 12 characters and eleven identical digits: it
    fails both validators and is accepted. *)
Lemma proccess_skips_checksum_witness :
  format_gate (row "1-1111111111" "1000.00" "10" "100.00") = true
  /\ validateCPF (lit "1-1111111111") = false
  /\ validateCNPJ (lit "1-1111111111") = false
  /\ accepts (constructor [] None) (row "1-1111111111" "1000.00" "10" "100.00").
Proof.
  split; [vm_compute; reflexivity |].
  split; [vm_compute; reflexivity |].
  split; [vm_compute; reflexivity |].
  apply (proccess_skips_checksum (constructor [] None)
           (row "1-1111111111" "1000.00" "10" "100.00")).
  - vm_compute; reflexivity.
  - vm_compute; lia.
  - vm_compute; lia.
  - vm_compute; reflexivity.
Defined.

(** * Installment consistency *)

(** [===] on numbers is equality of the binary64 values: the same value,
    not [NaN], or two zeros of any sign. *)
Lemma number_eq_exact (x y : number) :
  number_eq x y = true
  <-> x <> NaN
      /\ (x = y \/ exists s s', x = S754_zero s /\ y = S754_zero s').
Proof.
  unfold number_eq, SFeqb, NaN. split.
  - destruct x as [sx | sx | | sx mx ex], y as [sy | sy | | sy my ey];
      cbn [SFcompare]; try discriminate;
      try (destruct sx; discriminate); try (destruct sy; discriminate).
    + intros _. split; [discriminate | right; eauto].
    + destruct sx, sy; try discriminate; intros _; split;
        (discriminate || now left).
    + destruct sx, sy; try discriminate;
        destruct (Z.compare_spec ex ey) as [-> | |]; try discriminate;
        change (Pos.compare_cont Eq mx my) with (Pos.compare mx my);
        destruct (Pos.compare_spec mx my) as [-> | |]; try discriminate;
        intros _; (split; [discriminate | now left]).
  - intros [Hnan [<- | (s & s' & -> & ->)]]; [| reflexivity].
    destruct x as [sx | sx | | sx mx ex]; cbn [SFcompare].
    + reflexivity.
    + destruct sx; reflexivity.
    + congruence.
    + destruct sx; rewrite Z.compare_refl;
        change (Pos.compare_cont Eq mx mx) with (Pos.compare mx mx);
        rewrite Pos.compare_refl; reflexivity.
Qed.

(** C5. [validateInstallments] holds exactly when the quotient of the parsed
    total by the parsed installment count and the parsed installment value
    are the same binary64 value, with no tolerance.  A record with total
    1000.00, count 10 and installment 100.00 passes; with installment 99.00
    it fails, and [proccess] rejects it with "Invalid Installments" once its
    taxpayer id has passed the gate and the check digits. *)
Theorem validateInstallments_spec :
  (forall d,
      let quotient :=
        number_div (parseFloat (vlTotal d)) (parseInt (qtPrestacoes d) None) in
      validateInstallments d = true
      <-> quotient <> NaN
          /\ (quotient = parseFloat (vlPresta d)
              \/ exists s s', quotient = S754_zero s
                              /\ parseFloat (vlPresta d) = S754_zero s'))
  /\ (forall d,
         vlTotal d = lit "1000.00" -> qtPrestacoes d = lit "10" ->
         vlPresta d = lit "100.00" ->
         validateInstallments d = true)
  /\ (forall this d,
         vlTotal d = lit "1000.00" -> qtPrestacoes d = lit "10" ->
         vlPresta d = lit "99.00" ->
         validateInstallments d = false
         /\ (format_gate d = true ->
             Pipeline.passes d Pipeline.Checksum = true ->
             rejects this d (lit "Invalid Installments"))).
Proof.
  split; [| split].
  - intros d. cbv zeta. unfold validateInstallments. apply number_eq_exact.
  - intros d Ht Hq Hp. unfold validateInstallments.
    rewrite Ht, Hq, Hp. vm_compute. reflexivity.
  - intros this d Ht Hq Hp.
    assert (Hv : validateInstallments d = false).
    { unfold validateInstallments. rewrite Ht, Hq, Hp. vm_compute. reflexivity. }
    split; [exact Hv |]. intros Hg Hc.
    destruct (proccess_outcome this d)
      as [[Hg' _] | [(_ & Hl & Hf & _) | [(_ & Hl & Hf & _) | [(_ & _ & _ & Hr) | (_ & _ & Hi & _)]]]];
      try congruence.
    + unfold Pipeline.passes in Hc. rewrite Hl in Hc. cbn in Hc. congruence.
    + unfold Pipeline.passes in Hc. rewrite Hl in Hc. cbn in Hc. congruence.
Qed.

Lemma validateInstallments_spec_witness :
  validateInstallments (row "11144477735" "1000.00" "10" "100.00") = true
  /\ validateInstallments (row "11144477735" "1000.00" "10" "99.00") = false
  /\ rejects (constructor [] None) (row "11144477735" "1000.00" "10" "99.00")
       (lit "Invalid Installments").
Proof.
  split; [| split].
  - apply (proj1 (proj2 validateInstallments_spec)
             (row "11144477735" "1000.00" "10" "100.00"));
      reflexivity.
  - apply (proj2 (proj2 validateInstallments_spec) (constructor [] None)
             (row "11144477735" "1000.00" "10" "99.00"));
      reflexivity.
  - apply (proj2 (proj2 validateInstallments_spec) (constructor [] None)
             (row "11144477735" "1000.00" "10" "99.00"));
      vm_compute; reflexivity.
Defined.

(** The comparison has no tolerance: 0.3 / 3 is the binary64 value just
    below the one of 0.1, and the record is rejected. *)
Example validateInstallments_no_tolerance :
  validateInstallments (row "11144477735" "0.3" "3" "0.1") = false
  /\ number_div (parseFloat (lit "0.3")) (parseInt (lit "3") None)
     = S754_finite false 7205759403792793 (-56)
  /\ parseFloat (lit "0.1") = S754_finite false 7205759403792794 (-56).
Proof. repeat split; vm_compute; reflexivity. Qed.

(** * The batch state *)

Lemma proccess_effect (this : CsvDataProcessor) (d : ICSVData) :
  filePath (proccess this d) = filePath this
  /\ batchSize (proccess this d) = batchSize this
  /\ count (proccess this d) = count this + 1
  /\ ((exists e, error_results (proccess this d) = error_results this ++ [e]
                 /\ success_results (proccess this d) = success_results this)
      \/ (exists n, success_results (proccess this d) = success_results this ++ [n]
                    /\ error_results (proccess this d) = error_results this)).
Proof.
  destruct (proccess_outcome this d)
    as [[_ H] | [(_ & _ & _ & H) | [(_ & _ & _ & H) | [(_ & _ & _ & H) | (_ & _ & _ & H)]]]];
    red in H; rewrite H; cbn; unfold push;
    repeat split; solve [left; eexists; split; reflexivity
                        | right; eexists; split; reflexivity].
Qed.

(** C6. The count is the number of accepted plus the number of rejected
    records: in the initial state, after [resetData], after [proccessBatch],
    and after every [proccess], which adds one to the count and pushes one
    outcome on exactly one of the two collections. *)
Theorem count_invariant_holds :
  (forall f b, count_invariant (constructor f b))
  /\ (forall this, count_invariant (resetData this))
  /\ (forall this out, count_invariant (fst (proccessBatch this out)))
  /\ (forall this d,
         count (proccess this d) = count this + 1
         /\ ((exists e, error_results (proccess this d) = error_results this ++ [e]
                        /\ success_results (proccess this d) = success_results this)
             \/ (exists n, success_results (proccess this d) = success_results this ++ [n]
                           /\ error_results (proccess this d) = error_results this)))
  /\ (forall this d, count_invariant this -> count_invariant (proccess this d)).
Proof.
  split; [| split; [| split; [| split]]].
  - intros f b. reflexivity.
  - intros this. reflexivity.
  - intros this out. reflexivity.
  - intros this d. split; apply proccess_effect.
  - intros this d Hinv. unfold count_invariant in *.
    destruct (proccess_effect this d) as (_ & _ & Hc & [[e [He Hs]] | [n [Hs He]]]);
      rewrite Hc, He, Hs, length_app; simpl; lia.
Qed.

Lemma count_invariant_holds_witness :
  count_invariant (constructor [] None)
  /\ count_invariant (proccess (constructor [] None) sample_row)
  /\ count (proccess (constructor [] None) sample_row) = 1.
Proof.
  split; [reflexivity |]. split.
  - apply (proj2 (proj2 (proj2 (proj2 count_invariant_holds)))
             (constructor [] None) sample_row).
    reflexivity.
  - vm_compute. reflexivity.
Defined.

(** C10. [resetData] leaves both collections empty and the count at 0, and
    a second call changes nothing. *)
Theorem resetData_idempotent (this : CsvDataProcessor) :
  is_empty (resetData this)
  /\ is_empty (resetData (resetData this))
  /\ resetData (resetData this) = resetData this.
Proof. repeat split. Qed.

(** * One rejection reason per record *)

Lemma first_failing_cases (d : ICSVData) :
  Pipeline.first_failing d
  = if negb (format_gate d) then Some Pipeline.FormatGate
    else if negb (Pipeline.passes d Pipeline.Checksum) then Some Pipeline.Checksum
    else if negb (validateInstallments d) then Some Pipeline.InstallmentConsistency
    else None.
Proof. reflexivity. Qed.

Lemma reason_in_reasons (d : ICSVData) (c : Pipeline.check) :
  In (Pipeline.reason d c) Pipeline.reasons.
Proof.
  destruct c; cbn [Pipeline.reason Pipeline.reasons].
  - now left.
  - destruct (Nat.eqb _ 11); [right; now left | right; right; now left].
  - right; right; right; now left.
Qed.

(** C8. [proccess] is total.  It pushes nothing on [error_results] when
    every check passes, and otherwise one entry: the reason of the first
    check that fails, in the order format gate, check digits, installment
    consistency, with the record itself.  Every reason is one of the four
    fixed strings. *)
Theorem proccess_first_failing_check (this : CsvDataProcessor) (d : ICSVData) :
  proccess this d
  = match Pipeline.first_failing d with
    | Some c => push_error (incr_count this)
                  {| error := Pipeline.reason d c; data := d |}
    | None => push_success (incr_count this) (normalized d)
    end
  /\ (exists l,
         error_results (proccess this d) = error_results this ++ l
         /\ (List.length l <= 1)%nat
         /\ forall e, In e l -> In (error e) Pipeline.reasons /\ data e = d).
Proof.
  assert (Heq : proccess this d
                = match Pipeline.first_failing d with
                  | Some c => push_error (incr_count this)
                                {| error := Pipeline.reason d c; data := d |}
                  | None => push_success (incr_count this) (normalized d)
                  end).
  { rewrite first_failing_cases.
    destruct (proccess_outcome this d)
      as [[Hg H] | [(Hg & Hl & Hv & H) | [(Hg & Hl & Hv & H) | [(Hg & Hc & Hi & H) | (Hg & Hc & Hi & H)]]]];
      red in H; rewrite H, Hg; cbn [negb].
    - reflexivity.
    - unfold Pipeline.passes, Pipeline.reason. rewrite Hl, Hv. reflexivity.
    - unfold Pipeline.passes, Pipeline.reason. rewrite Hl, Hv. reflexivity.
    - rewrite Hc, Hi. reflexivity.
    - rewrite Hc, Hi. reflexivity. }
  split; [exact Heq |].
  rewrite Heq. destruct (Pipeline.first_failing d) as [c |].
  - exists [{| error := Pipeline.reason d c; data := d |}].
    split; [reflexivity |]. split; [simpl; lia |].
    intros e [<- | []]. split; [apply reason_in_reasons | reflexivity].
  - exists []. cbn. rewrite app_nil_r. split; [reflexivity |].
    split; [lia | intros e []].
Qed.

(** * Batch boundaries *)

Lemma proccess_all_effect (rows : list ICSVData) :
  forall this,
    batchSize (proccess_all rows this) = batchSize this
    /\ count (proccess_all rows this) = count this + Z.of_nat (List.length rows)
    /\ (List.length (success_results (proccess_all rows this))
        + List.length (error_results (proccess_all rows this))
        = List.length (success_results this) + List.length (error_results this)
          + List.length rows)%nat.
Proof.
  induction rows as [| d rows IH]; intros this.
  - cbn. repeat split; lia.
  - cbn [proccess_all fold_left List.length].
    destruct (IH (proccess this d)) as (Hb & Hc & Hl).
    unfold proccess_all in *. rewrite Hb, Hc, Hl.
    destruct (proccess_effect this d) as (_ & Hb' & Hc' & [[e [He Hs]] | [n [Hs He]]]);
      rewrite Hb', Hc', He, Hs, length_app; cbn [List.length];
      repeat split; lia.
Qed.

(** Below the batch size no row triggers a flush. *)
Lemma feed_below (rows : list ICSVData) :
  forall this out,
    count this + Z.of_nat (List.length rows) < batchSize this ->
    feed rows (this, out) = (proccess_all rows this, out).
Proof.
  induction rows as [| d rows IH]; intros this out Hlt; [reflexivity |].
  cbn [feed proccess_all fold_left on_data].
  destruct (proccess_effect this d) as (_ & Hb & Hc & _).
  cbn [List.length] in Hlt.
  destruct (Z.geb_spec (count (proccess this d)) (batchSize (proccess this d))) as [Hge | _];
    [rewrite Hb, Hc in Hge; lia |].
  apply IH. rewrite Hb, Hc. lia.
Qed.

Lemma flushes_proccessBatch (this : CsvDataProcessor) (out : console) :
  flushes (snd (proccessBatch this out)) = S (flushes out).
Proof.
  unfold proccessBatch, flushes. cbn [snd].
  rewrite !filter_app, !length_app. cbn. lia.
Qed.

(** C7. From a reset state and with a batch size of at least one: feeding
    exactly [batchSize] rows ends in one flush, of all of them, at the last
    row, and the state is empty afterwards; feeding [batchSize - 1] rows
    flushes nothing, and the end of the stream then flushes them, once.
    Every flush leaves both collections empty and the count at 0. *)
Theorem batch_boundary (this : CsvDataProcessor) (out : console)
    (rows : list ICSVData) :
  1 <= batchSize this ->
  (Z.of_nat (List.length rows) = batchSize this ->
   feed rows (resetData this, out)
   = proccessBatch (proccess_all rows (resetData this)) out
   /\ flushes (snd (feed rows (resetData this, out))) = S (flushes out)
   /\ is_empty (fst (feed rows (resetData this, out))))
  /\ (Z.of_nat (List.length rows) = batchSize this - 1 ->
      feed rows (resetData this, out) = (proccess_all rows (resetData this), out)
      /\ getCsvData rows (resetData this, out)
         = proccessBatch (proccess_all rows (resetData this)) out
      /\ flushes (snd (getCsvData rows (resetData this, out))) = S (flushes out)
      /\ is_empty (fst (getCsvData rows (resetData this, out))))
  /\ (List.length (success_results (proccess_all rows (resetData this)))
      + List.length (error_results (proccess_all rows (resetData this)))
      = List.length rows)%nat
  /\ (forall batch o, is_empty (fst (proccessBatch batch o))).
Proof.
  intros Hpos. split; [| split; [| split]].
  - intros Hlen.
    assert (Hfeed : feed rows (resetData this, out)
                    = proccessBatch (proccess_all rows (resetData this)) out).
    { destruct (exists_last (l := rows)) as [rows' [d ->]].
      { intros ->. cbn in Hlen. lia. }
      rewrite length_app in Hlen. cbn [List.length] in Hlen.
      unfold feed, proccess_all. rewrite !fold_left_app. cbn [fold_left].
      fold (feed rows' (resetData this, out)).
      fold (proccess_all rows' (resetData this)).
      rewrite feed_below by (cbn; lia).
      cbn [on_data].
      destruct (proccess_all_effect rows' (resetData this)) as (Hb & Hc & _).
      destruct (proccess_effect (proccess_all rows' (resetData this)) d)
        as (_ & Hb' & Hc' & _).
      destruct (Z.geb_spec (count (proccess (proccess_all rows' (resetData this)) d))
                  (batchSize (proccess (proccess_all rows' (resetData this)) d)))
        as [_ | Hlt]; [reflexivity |].
      rewrite Hb', Hc', Hb, Hc in Hlt. cbn in Hlt. lia. }
    rewrite Hfeed. split; [reflexivity |].
    split; [apply flushes_proccessBatch | repeat split].
  - intros Hlen.
    assert (Hfeed : feed rows (resetData this, out)
                    = (proccess_all rows (resetData this), out)).
    { apply feed_below. cbn. lia. }
    split; [exact Hfeed |].
    unfold getCsvData. rewrite Hfeed. cbn [on_end].
    split; [reflexivity |].
    split; [apply flushes_proccessBatch | repeat split].
  - destruct (proccess_all_effect rows (resetData this)) as (_ & _ & Hl).
    rewrite Hl. cbn. lia.
  - intros batch o. repeat split.
Qed.

Lemma batch_boundary_witness :
  1 <= batchSize (constructor [] (Some 2))
  /\ flushes (snd (feed [sample_row; sample_row]
                     (resetData (constructor [] (Some 2)), []))) = 1%nat
  /\ flushes (snd (feed [sample_row]
                     (resetData (constructor [] (Some 2)), []))) = 0%nat
  /\ flushes (snd (getCsvData [sample_row]
                     (resetData (constructor [] (Some 2)), []))) = 1%nat.
Proof.
  split; [cbn; lia |]. split; [| split].
  - apply (proj1 (batch_boundary (constructor [] (Some 2)) []
                    [sample_row; sample_row] ltac:(cbn; lia))).
    reflexivity.
  - exact (f_equal (fun w => flushes (snd w))
             (proj1 (proj1 (proj2 (batch_boundary (constructor [] (Some 2)) []
                                     [sample_row] ltac:(cbn; lia))) eq_refl))).
  - apply (proj1 (proj2 (batch_boundary (constructor [] (Some 2)) []
                           [sample_row] ltac:(cbn; lia)))).
    reflexivity.
Defined.

(** The default batch size. *)
Example default_batchSize (f : jsstring) :
  batchSize (constructor f None) = 1000 /\ batchSize (constructor f (Some 0)) = 1000.
Proof. split; reflexivity. Qed.

(** * Normalization *)

Lemma uint_codes_digits (u : Decimal.uint) (c : code_unit) :
  In c (uint_codes u) -> is_digit c = true.
Proof.
  induction u; cbn [uint_codes]; intros H; try contradiction;
    (destruct H as [<- | H]; [reflexivity | now apply IHu]).
Qed.

Lemma group_rev_In (sep : code_unit) (l : jsstring) :
  forall n c, In c (group_rev sep n l) -> c = sep \/ In c l.
Proof.
  induction l as [| d l IH]; intros n c H; [contradiction |].
  destruct n as [| [| [| [| n]]]]; cbn [group_rev] in H;
    repeat (destruct H as [<- | H]; [auto using in_eq |]);
    (apply IH in H; destruct H; [now left | right; now right]).
Qed.

Lemma grouped_In (sep : code_unit) (ds : jsstring) (c : code_unit) :
  In c (grouped sep ds) -> c = sep \/ In c ds.
Proof.
  unfold grouped. intros H. apply in_rev in H. apply group_rev_In in H.
  destruct H as [H | H]; [now left | right; now apply in_rev].
Qed.

Lemma last_digit_is_digit (z : Z) : is_digit (Z.to_N (48 + z mod 10)) = true.
Proof.
  pose proof (Z.mod_pos_bound z 10 ltac:(lia)) as H.
  unfold is_digit. rewrite andb_true_iff, !N.leb_le. lia.
Qed.

(** The magnitude of a finite amount is written with exactly two fraction
    digits, whatever integer the rounding gives. *)
Lemma format_magnitude_two_fraction_digits (pre : jsstring) (z : Z) :
  (forall c, In c pre -> c <> 44%N) ->
  two_fraction_digits 44%N (pre ++ format_magnitude pt_BR_BRL 2 z) = true.
Proof.
  intros Hpre. unfold format_magnitude, two_fraction_digits.
  cbn [fraction_digits decimal_separator group_separator pt_BR_BRL app].
  set (int_part := grouped 46%N _).
  rewrite app_assoc.
  rewrite rev_app_distr. cbn [rev app].
  rewrite !last_digit_is_digit. cbn [andb N.eqb Pos.eqb].
  apply negb_true_iff. apply not_true_is_false. intros H.
  apply existsb_exists in H. destruct H as [c [Hc Heq]].
  apply N.eqb_eq in Heq. subst c. apply in_rev in Hc.
  apply in_app_or in Hc. destruct Hc as [Hc | Hc].
  - now apply (Hpre _ Hc).
  - apply grouped_In in Hc. destruct Hc as [Hc | Hc]; [discriminate |].
    apply uint_codes_digits in Hc. discriminate.
Qed.

Lemma formatCurrency_two_fraction_digits (value : jsstring) :
  is_finite (parseFloat value) = true ->
  two_fraction_digits 44%N (formatCurrency value) = true.
Proof.
  unfold formatCurrency, format_currency_number.
  destruct (parseFloat value) as [s | s | | s m e]; intros H; try discriminate.
  - rewrite app_assoc. apply format_magnitude_two_fraction_digits.
    intros c Hc. destruct s; cbn in Hc; intros ->; intuition discriminate.
  - rewrite app_assoc. apply format_magnitude_two_fraction_digits.
    intros c Hc. destruct s; cbn in Hc; intros ->; intuition discriminate.
Qed.

(** C9, as the code has it.  Whenever [proccess] appends a record [n] to
    [success_results], each designated integer field of [n] is
    [parseInt(field, 10)] of the raw field, each designated monetary field is
    the pt-BR BRL rendering of [parseFloat(field)], which ends with a comma
    and exactly two digits whenever [parseFloat] gives a finite number, and
    every other field is the raw field. *)
Theorem normalized_fields (this : CsvDataProcessor) (d : ICSVData) (n : IData) :
  success_results (proccess this d) = success_results this ++ [n] ->
  Forall (fun p => snd p n = parseInt (fst p d) (Some 10)) integer_fields
  /\ Forall (fun p =>
               snd p n = format_currency_number pt_BR_BRL 2 (parseFloat (fst p d))
               /\ (is_finite (parseFloat (fst p d)) = true ->
                   two_fraction_digits 44%N (snd p n) = true))
       monetary_fields
  /\ Forall (fun p => snd p n = fst p d) carried_fields.
Proof.
  intros Hn.
  assert (Heq : n = normalized d).
  { destruct (proccess_outcome this d)
      as [[_ H] | [(_ & _ & _ & H) | [(_ & _ & _ & H) | [(_ & _ & _ & H) | (_ & _ & _ & H)]]]];
      red in H; rewrite H in Hn; cbn in Hn; unfold push in Hn.
    1-4: apply (f_equal (@List.length IData)) in Hn;
         rewrite length_app in Hn; cbn in Hn; lia.
    apply app_inv_head in Hn. now injection Hn. }
  subst n.
  split; [repeat constructor |].
  split; [| repeat constructor].
  repeat (constructor;
          [split; [reflexivity | apply formatCurrency_two_fraction_digits] |]).
  constructor.
Qed.

Lemma normalized_fields_witness :
  success_results (proccess (constructor [] None) sample_row)
  = success_results (constructor [] None) ++ [normalized sample_row]
  /\ vlTotal' (normalized sample_row) = lit "R$" ++ [160%N] ++ lit "1.000,00"
  /\ two_fraction_digits 44%N (vlTotal' (normalized sample_row)) = true
  /\ qtPrestacoes' (normalized sample_row) = number_of_Z false 10.
Proof.
  assert (H : success_results (proccess (constructor [] None) sample_row)
              = success_results (constructor [] None) ++ [normalized sample_row])
    by (vm_compute; reflexivity).
  split; [exact H |].
  destruct (normalized_fields (constructor [] None) sample_row
              (normalized sample_row) H) as (Hi & Hm & _).
  split; [| split].
  - etransitivity; [exact (proj1 (Forall_inv Hm)) |].
    vm_compute. reflexivity.
  - apply (proj2 (Forall_inv Hm)). vm_compute. reflexivity.
  - etransitivity;
      [exact (Forall_inv (Forall_inv_tail (Forall_inv_tail (Forall_inv_tail
                                                             (Forall_inv_tail Hi))))) |].
    vm_compute. reflexivity.
Defined.

(** C9 as stated fails: the accepted [sample_row] has an empty late-fee
    column, [parseFloat] gives [NaN] for it, and its rendering has no
    fraction digit. *)
Lemma normalized_fraction_digits_counterexample :
  accepts (constructor [] None) sample_row
  /\ In (vlMora, vlMora') monetary_fields
  /\ parseFloat (vlMora sample_row) = NaN
  /\ vlMora' (normalized sample_row) = lit "R$" ++ [160%N] ++ lit "NaN"
  /\ two_fraction_digits 44%N (vlMora' (normalized sample_row)) = false.
Proof.
  split; [vm_compute; reflexivity |].
  split; [right; right; now left |].
  repeat split; vm_compute; reflexivity.
Qed.

(** The shortest decimal of a number reads back as the number. *)
Example shortest_decimal_examples :
  shortest_decimal 7205759403792794 (-56) = (1, -1)
  /\ parseFloat (lit "0.1") = S754_finite false 7205759403792794 (-56)
  /\ shortest_decimal 7205759403792793 (-56) = (9999999999999999, -17)
  /\ parseFloat (lit "0.09999999999999999")
     = S754_finite false 7205759403792793 (-56)
  /\ shortest_decimal 4503599627370496 (-52) = (1, 0)
  /\ shortest_decimal 1 (-1074) = (5, -324)
  /\ parseFloat (lit "5e-324") = S754_finite false 1 (-1074).
Proof. repeat split; vm_compute; reflexivity. Qed.

(** The formatter rounds the shortest decimal, not the binary value: 1.005
    is below 1.005 as a binary64 value and is written 1,01. *)
Example formatCurrency_shortest_decimal :
  formatCurrency (lit "1.005") = lit "R$" ++ [160%N] ++ lit "1,01"
  /\ formatCurrency (lit "2.675") = lit "R$" ++ [160%N] ++ lit "2,68"
  /\ formatCurrency (lit "999.995") = lit "R$" ++ [160%N] ++ lit "1.000,00"
  /\ formatCurrency (lit "0.004") = lit "R$" ++ [160%N] ++ lit "0,00"
  /\ formatCurrency (lit "1e23")
     = lit "R$" ++ [160%N] ++ lit "100.000.000.000.000.000.000.000,00".
Proof. repeat split; vm_compute; reflexivity. Qed.

(** An accepted row whose installment value ends in a 5 at the third
    fraction digit: 2.01 / 2 is the binary64 value of 1.005, and the record
    stores R$ 1,01. *)
Example normalized_rounds_shortest_decimal :
  accepts (constructor [] None) (row "11144477735" "2.01" "2" "1.005")
  /\ vlPresta' (normalized (row "11144477735" "2.01" "2" "1.005"))
     = lit "R$" ++ [160%N] ++ lit "1,01".
Proof. split; vm_compute; reflexivity. Qed.

(** Amounts as the formatter writes them. *)
Example formatCurrency_examples :
  formatCurrency (lit "1234567.891") = lit "R$" ++ [160%N] ++ lit "1.234.567,89"
  /\ formatCurrency (lit "-0.125") = lit "-R$" ++ [160%N] ++ lit "0,13"
  /\ formatCurrency (lit "100") = lit "R$" ++ [160%N] ++ lit "100,00"
  /\ formatCurrency (lit "Infinity") = lit "R$" ++ [160%N; 8734%N].
Proof. repeat split; vm_compute; reflexivity. Qed.

(** * The whole run *)

Lemma proccess_results (this : CsvDataProcessor) (d : ICSVData) :
  error_results (proccess this d) = error_results this ++ rejection d
  /\ success_results (proccess this d) = success_results this ++ acceptance d.
Proof.
  unfold rejection, acceptance. rewrite first_failing_cases.
  destruct (proccess_outcome this d)
    as [[Hg H] | [(Hg & Hl & Hv & H) | [(Hg & Hl & Hv & H) | [(Hg & Hc & Hi & H) | (Hg & Hc & Hi & H)]]]];
    red in H; rewrite H, Hg; cbn [negb].
  - cbn. rewrite app_nil_r. split; reflexivity.
  - unfold Pipeline.passes, Pipeline.reason. rewrite Hl, Hv. cbn.
    rewrite app_nil_r. split; reflexivity.
  - unfold Pipeline.passes, Pipeline.reason. rewrite Hl, Hv. cbn.
    rewrite app_nil_r. split; reflexivity.
  - rewrite Hc, Hi. cbn. rewrite app_nil_r. split; reflexivity.
  - rewrite Hc, Hi. cbn. rewrite app_nil_r. split; reflexivity.
Qed.

Lemma logged_proccessBatch (this : CsvDataProcessor) (out : console) :
  logged_errors (snd (proccessBatch this out)) = logged_errors out ++ error_results this
  /\ logged_data (snd (proccessBatch this out)) = logged_data out ++ success_results this.
Proof.
  unfold proccessBatch, logged_errors, logged_data. cbn [snd].
  rewrite !flat_map_app. cbn. rewrite !app_nil_r. split; reflexivity.
Qed.

Lemma on_data_partition (d : ICSVData) (w : CsvDataProcessor * console) :
  logged_errors (snd (on_data d w)) ++ error_results (fst (on_data d w))
  = (logged_errors (snd w) ++ error_results (fst w)) ++ rejection d
  /\ logged_data (snd (on_data d w)) ++ success_results (fst (on_data d w))
     = (logged_data (snd w) ++ success_results (fst w)) ++ acceptance d.
Proof.
  destruct w as [this out]. cbn [on_data fst snd].
  destruct (proccess_results this d) as [He Hs].
  destruct (count (proccess this d) >=? batchSize (proccess this d)).
  - destruct (logged_proccessBatch (proccess this d) out) as [-> ->].
    cbn [proccessBatch fst resetData error_results success_results].
    rewrite !app_nil_r, He, Hs, !app_assoc. split; reflexivity.
  - cbn [fst snd]. rewrite He, Hs, !app_assoc. split; reflexivity.
Qed.

Lemma feed_cons (d : ICSVData) (rows : list ICSVData)
    (w : CsvDataProcessor * console) :
  feed (d :: rows) w = feed rows (on_data d w).
Proof. reflexivity. Qed.

Lemma feed_partition (rows : list ICSVData) :
  forall w,
    logged_errors (snd (feed rows w)) ++ error_results (fst (feed rows w))
    = (logged_errors (snd w) ++ error_results (fst w)) ++ flat_map rejection rows
    /\ logged_data (snd (feed rows w)) ++ success_results (fst (feed rows w))
       = (logged_data (snd w) ++ success_results (fst w)) ++ flat_map acceptance rows.
Proof.
  induction rows as [| d rows IH]; intros w.
  - cbn. rewrite !app_nil_r. split; reflexivity.
  - rewrite feed_cons. cbn [flat_map].
    destruct (IH (on_data d w)) as [-> ->].
    destruct (on_data_partition d w) as [-> ->].
    rewrite <- !app_assoc. split; reflexivity.
Qed.

(** X1. Over a whole run, whatever the batch size, the rejected rows logged
    are the rejections of the rows of the stream, in the order of the stream,
    and the accepted rows logged are their normalized records, in that order:
    no row is lost, none is logged twice, and the state is empty at the
    end. *)
Theorem run_partitions_stream (this : CsvDataProcessor) (out : console)
    (rows : list ICSVData) :
  logged_errors (snd (run rows (this, out)))
  = logged_errors out ++ flat_map rejection rows
  /\ logged_data (snd (run rows (this, out)))
     = logged_data out ++ flat_map acceptance rows
  /\ is_empty (fst (run rows (this, out))).
Proof.
  unfold run, getCsvData.
  destruct (feed_partition rows (resetData this, out)) as [He Hs].
  destruct (feed rows (resetData this, out)) as [this' out'] eqn:Hf.
  cbn [on_end fst snd] in *.
  destruct (logged_proccessBatch this' out') as [-> ->].
  rewrite He, Hs, !app_nil_r. repeat split.
Qed.

(** Every row of the stream gives one rejection or one acceptance. *)
Lemma rejection_or_acceptance (d : ICSVData) :
  (List.length (rejection d) + List.length (acceptance d) = 1)%nat.
Proof.
  unfold rejection, acceptance. destruct (Pipeline.first_failing d); reflexivity.
Qed.

Lemma on_data_effect (d : ICSVData) (w : CsvDataProcessor * console) :
  filePath (fst (on_data d w)) = filePath (fst w)
  /\ batchSize (fst (on_data d w)) = batchSize (fst w)
  /\ exists out', snd (on_data d w) = snd w ++ out'.
Proof.
  destruct w as [this out]. cbn [on_data fst snd].
  destruct (proccess_effect this d) as (Hf & Hb & _).
  destruct (count (proccess this d) >=? batchSize (proccess this d)).
  - cbn. rewrite Hf, Hb. repeat split. rewrite <- app_assoc. eexists. reflexivity.
  - cbn. rewrite Hf, Hb. repeat split. exists []. now rewrite app_nil_r.
Qed.

Lemma feed_effect (rows : list ICSVData) :
  forall w,
    filePath (fst (feed rows w)) = filePath (fst w)
    /\ batchSize (fst (feed rows w)) = batchSize (fst w)
    /\ exists out', snd (feed rows w) = snd w ++ out'.
Proof.
  induction rows as [| d rows IH]; intros w.
  - cbn. repeat split. exists []. now rewrite app_nil_r.
  - rewrite feed_cons.
    destruct (IH (on_data d w)) as (-> & -> & out2 & ->).
    destruct (on_data_effect d w) as (-> & -> & out1 & ->).
    repeat split. exists (out1 ++ out2). now rewrite app_assoc.
Qed.

(** X2. A run never changes the file path or the batch size of the instance,
    and it only appends to the console: what was logged before stays, in
    place. *)
Theorem run_keeps_configuration (w : CsvDataProcessor * console)
    (rows : list ICSVData) :
  filePath (fst (run rows w)) = filePath (fst w)
  /\ batchSize (fst (run rows w)) = batchSize (fst w)
  /\ exists out', snd (run rows w) = snd w ++ out'.
Proof.
  destruct w as [this out]. unfold run, getCsvData.
  destruct (feed_effect rows (resetData this, out)) as (Hf & Hb & out1 & Ho).
  destruct (feed rows (resetData this, out)) as [this' out'].
  cbn [fst snd on_end proccessBatch resetData filePath batchSize] in *.
  subst out'. rewrite Hf, Hb. repeat split.
  rewrite <- !app_assoc. eexists. reflexivity.
Qed.

(** The count after feeding rows, and the flushes on the way. *)
Lemma feed_count (rows : list ICSVData) :
  forall this out,
    1 <= batchSize this ->
    0 <= count this < batchSize this ->
    count_invariant this ->
    count (fst (feed rows (this, out)))
    = (count this + Z.of_nat (List.length rows)) mod batchSize this
    /\ Z.of_nat (flushes (snd (feed rows (this, out))))
       = Z.of_nat (flushes out)
         + (count this + Z.of_nat (List.length rows)) / batchSize this
    /\ count_invariant (fst (feed rows (this, out))).
Proof.
  induction rows as [| d rows IH]; intros this out HB Hc Hinv.
  - cbn [feed fold_left fst snd List.length]. rewrite Z.add_0_r.
    rewrite Z.mod_small, Z.div_small by lia. repeat split; [lia | assumption].
  - rewrite feed_cons. cbn [on_data].
    destruct (proccess_effect this d) as (_ & Hb & Hcnt & Hpush).
    assert (Hinv' : count_invariant (proccess this d)).
    { unfold count_invariant in *.
      destruct Hpush as [[e [He Hs]] | [n [Hs He]]];
        rewrite Hcnt, He, Hs, length_app; simpl; lia. }
    destruct (Z.geb_spec (count (proccess this d)) (batchSize (proccess this d)))
      as [Hge | Hlt]; rewrite Hb, Hcnt in *.
    + pose proof (flushes_proccessBatch (proccess this d) out) as Hfl.
      assert (Ht : fst (proccessBatch (proccess this d) out)
                   = resetData (proccess this d)) by reflexivity.
      destruct (proccessBatch (proccess this d) out) as [t o].
      cbn [fst snd] in Hfl, Ht. subst t.
      destruct (IH (resetData (proccess this d)) o) as (H1 & H2 & H3);
        [cbn; lia | cbn; lia | reflexivity |].
      cbn [resetData count batchSize] in H1, H2.
      rewrite Hb, Z.add_0_l in H1, H2.
      rewrite H1, H2, Hfl.
      replace (count this + Z.of_nat (List.length (d :: rows)))
        with (Z.of_nat (List.length rows) + 1 * batchSize this)
        by (cbn [List.length]; lia).
      rewrite Z_mod_plus_full, Z.div_add by lia.
      repeat split; [lia | assumption].
    + destruct (IH (proccess this d) out) as (H1 & H2 & H3);
        [lia | lia | assumption |].
      rewrite Hb, Hcnt in H1, H2. rewrite H1, H2.
      replace (count this + 1 + Z.of_nat (List.length rows))
        with (count this + Z.of_nat (List.length (d :: rows)))
        by (cbn [List.length]; lia).
      repeat split; assumption.
Qed.

(** X3. With a batch size of at least one, a run over [n] rows flushes
    [n / batchSize + 1] times: once per full batch, and once at the end of
    the stream (an empty flush when [n] is a multiple of the batch size). *)
Theorem run_flush_count (this : CsvDataProcessor) (out : console)
    (rows : list ICSVData) :
  1 <= batchSize this ->
  Z.of_nat (flushes (snd (run rows (this, out))))
  = Z.of_nat (flushes out) + Z.of_nat (List.length rows) / batchSize this + 1.
Proof.
  intros HB. unfold run, getCsvData.
  destruct (feed_count rows (resetData this) out) as (_ & Hfl & _);
    [exact HB | cbn; lia | reflexivity |].
  cbn [resetData count batchSize] in Hfl. rewrite Z.add_0_l in Hfl.
  destruct (feed rows (resetData this, out)) as [this' out'].
  cbn [on_end snd] in *.
  rewrite flushes_proccessBatch, Nat2Z.inj_succ, Hfl. lia.
Qed.

Lemma run_flush_count_witness :
  1 <= batchSize (constructor [] (Some 2))
  /\ Z.of_nat (flushes (snd (run [sample_row; sample_row; sample_row]
                               (constructor [] (Some 2), []))))
     = 2.
Proof.
  split; [cbn; lia |].
  exact (run_flush_count (constructor [] (Some 2)) []
           [sample_row; sample_row; sample_row] ltac:(cbn; lia)).
Defined.

(** X4. With a batch size of at least one, between two rows of the stream
    the instance holds fewer rows than the batch size: after [n] rows from a
    reset state the count is [n mod batchSize], and the two collections hold
    that many entries together. *)
Theorem feed_buffer_bound (this : CsvDataProcessor) (out : console)
    (rows : list ICSVData) :
  1 <= batchSize this ->
  count (fst (feed rows (resetData this, out)))
  = Z.of_nat (List.length rows) mod batchSize this
  /\ count (fst (feed rows (resetData this, out))) < batchSize this
  /\ Z.of_nat (List.length (success_results (fst (feed rows (resetData this, out)))))
     + Z.of_nat (List.length (error_results (fst (feed rows (resetData this, out)))))
     = Z.of_nat (List.length rows) mod batchSize this.
Proof.
  intros HB.
  destruct (feed_count rows (resetData this) out) as (Hc & _ & Hinv);
    [exact HB | cbn; lia | reflexivity |].
  cbn [resetData count batchSize] in Hc. rewrite Z.add_0_l in Hc.
  red in Hinv. rewrite <- Hinv, Hc.
  pose proof (Z.mod_pos_bound (Z.of_nat (List.length rows)) (batchSize this)) as Hm.
  repeat split; lia.
Qed.

Lemma feed_buffer_bound_witness :
  1 <= batchSize (constructor [] (Some 2))
  /\ count (fst (feed [sample_row; sample_row; sample_row]
                   (resetData (constructor [] (Some 2)), [])))
     = 1.
Proof.
  split; [cbn; lia |].
  exact (proj1 (feed_buffer_bound (constructor [] (Some 2)) []
                  [sample_row; sample_row; sample_row] ltac:(cbn; lia))).
Defined.

Lemma feed_flush_each (rows : list ICSVData) :
  forall this out,
    batchSize this <= 1 -> 0 <= count this ->
    flushes (snd (feed rows (this, out))) = (flushes out + List.length rows)%nat
    /\ (rows <> [] -> is_empty (fst (feed rows (this, out)))).
Proof.
  induction rows as [| d rows IH]; intros this out HB Hc.
  - split; [cbn [feed fold_left snd List.length]; lia | congruence].
  - rewrite feed_cons. cbn [on_data].
    destruct (proccess_effect this d) as (_ & Hb & Hcnt & _).
    destruct (Z.geb_spec (count (proccess this d)) (batchSize (proccess this d)))
      as [_ | Hlt]; [| rewrite Hb, Hcnt in Hlt; lia].
    pose proof (flushes_proccessBatch (proccess this d) out) as Hfl.
    assert (Ht : fst (proccessBatch (proccess this d) out)
                 = resetData (proccess this d)) by reflexivity.
    destruct (proccessBatch (proccess this d) out) as [t o].
    cbn [fst snd] in Hfl, Ht. subst t.
    destruct (IH (resetData (proccess this d)) o) as (H1 & H2);
      [cbn; lia | cbn; lia |].
    rewrite H1, Hfl. cbn [List.length]. split; [lia |].
    intros _. destruct rows as [| d' rows'].
    + cbn. repeat split.
    + apply H2. discriminate.
Qed.

(** X5. A batch size of one, or a negative one (the constructor keeps it: it
    is truthy), makes every row its own batch: each ['data'] event flushes,
    and the state is empty after every row. *)
Theorem nonpositive_batchSize_flushes_each_row (this : CsvDataProcessor)
    (out : console) (rows : list ICSVData) :
  batchSize this <= 1 ->
  flushes (snd (feed rows (resetData this, out))) = (flushes out + List.length rows)%nat
  /\ (rows <> [] -> is_empty (fst (feed rows (resetData this, out)))).
Proof.
  intros HB. apply feed_flush_each; cbn; lia.
Qed.

Lemma nonpositive_batchSize_flushes_each_row_witness :
  batchSize (constructor [] (Some (-5))) <= 1
  /\ flushes (snd (feed [sample_row; sample_row]
                     (resetData (constructor [] (Some (-5))), [])))
     = 2%nat.
Proof.
  split; [cbn; lia |].
  exact (proj1 (nonpositive_batchSize_flushes_each_row
                  (constructor [] (Some (-5))) [] [sample_row; sample_row]
                  ltac:(cbn; lia))).
Defined.

(** * More on the validators *)

Lemma strip_non_digits_idem (s : jsstring) :
  strip_non_digits (strip_non_digits s) = strip_non_digits s.
Proof.
  unfold strip_non_digits. induction s as [| c s IH]; [reflexivity |].
  cbn [filter]. destruct (is_digit c) eqn:Hc; [| exact IH].
  cbn [filter]. rewrite Hc, IH. reflexivity.
Qed.

Lemma strip_all_digits (s : jsstring) :
  Forall (fun c => is_digit c = true) s -> strip_non_digits s = s.
Proof.
  unfold strip_non_digits. induction 1 as [| c s Hc _ IH]; [reflexivity |].
  cbn [filter]. rewrite Hc, IH. reflexivity.
Qed.

(** X6. The validators read the digits of their argument and nothing else:
    two strings with the same digits in the same order get the same verdict,
    and a string gets the verdict of its digits alone. *)
Theorem validators_read_digits_only (s t : jsstring) :
  strip_non_digits s = strip_non_digits t ->
  validateCPF s = validateCPF t
  /\ validateCNPJ s = validateCNPJ t
  /\ validateCPF (strip_non_digits s) = validateCPF s
  /\ validateCNPJ (strip_non_digits s) = validateCNPJ s.
Proof.
  intros H. unfold validateCPF, validateCNPJ. cbv zeta.
  rewrite strip_non_digits_idem, H. repeat split.
Qed.

Lemma validators_read_digits_only_witness :
  strip_non_digits (lit "111.444.777-35") = strip_non_digits (lit "11144477735")
  /\ validateCPF (lit "111.444.777-35") = validateCPF (lit "11144477735").
Proof.
  split; [reflexivity |].
  exact (proj1 (validators_read_digits_only (lit "111.444.777-35")
                  (lit "11144477735") eq_refl)).
Defined.

Lemma validateCPF_length (s : jsstring) :
  validateCPF s = true -> List.length (strip_non_digits s) = 11%nat.
Proof.
  unfold validateCPF. cbv zeta.
  destruct (Nat.eqb_spec (List.length (strip_non_digits s)) 11); [auto |].
  discriminate.
Qed.

Lemma validateCNPJ_length (s : jsstring) :
  validateCNPJ s = true -> List.length (strip_non_digits s) = 14%nat.
Proof.
  unfold validateCNPJ. cbv zeta.
  destruct (Nat.eqb_spec (List.length (strip_non_digits s)) 14); [auto |].
  discriminate.
Qed.

(** X7. No string passes both validators, and a taxpayer id that passes
    either of them passes the format gate of [proccess]. *)
Theorem validators_exclusive (s : jsstring) :
  (validateCPF s = true -> validateCNPJ s = false)
  /\ (validateCNPJ s = true -> validateCPF s = false)
  /\ (validateCPF s = true \/ validateCNPJ s = true ->
      includes_11_14 (List.length (strip_non_digits s)) = true).
Proof.
  split; [| split].
  - intros H. apply validateCPF_length in H.
    destruct (validateCNPJ s) eqn:H'; [| reflexivity].
    apply validateCNPJ_length in H'. lia.
  - intros H. apply validateCNPJ_length in H.
    destruct (validateCPF s) eqn:H'; [| reflexivity].
    apply validateCPF_length in H'. lia.
  - intros [H | H].
    + apply validateCPF_length in H. rewrite H. reflexivity.
    + apply validateCNPJ_length in H. rewrite H. reflexivity.
Qed.

Lemma validators_exclusive_witness :
  validateCPF (lit "11144477735") = true
  /\ validateCNPJ (lit "11144477735") = false.
Proof.
  split; [vm_compute; reflexivity |].
  apply (proj1 (validators_exclusive (lit "11144477735"))).
  vm_compute. reflexivity.
Defined.

Lemma firstn_succ_nth {A : Type} (l : list A) :
  forall k x, nth_error l k = Some x -> firstn (S k) l = firstn k l ++ [x].
Proof.
  induction l as [| a l IH]; intros [| k] x H; try discriminate.
  - injection H as ->. reflexivity.
  - cbn [nth_error] in H. cbn [firstn app]. f_equal.
    rewrite <- (IH k x H). reflexivity.
Qed.

Lemma map_injective {A B : Type} (f : A -> B) :
  (forall a b, f a = f b -> a = b) ->
  forall l l', List.map f l = List.map f l' -> l = l'.
Proof.
  intros Hf. induction l as [| a l IH]; intros [| b l'] H; try discriminate.
  - reflexivity.
  - injection H as Hab Hl. f_equal; [now apply Hf | now apply IH].
Qed.

(** The digits before the check digits fix the two check digits. *)
Lemma valid_id_unique (n : nat) (w1 w2 ds ds' : list Z) :
  (2 <= n)%nat ->
  Rule.valid_id n w1 w2 ds -> Rule.valid_id n w1 w2 ds' ->
  firstn (n - 2) ds = firstn (n - 2) ds' ->
  ds = ds'.
Proof.
  intros Hn (Hl & _ & H1 & H2) (Hl' & _ & H1' & H2') Hbase.
  assert (Hk : firstn (n - 1) ds = firstn (n - 1) ds').
  { replace (n - 1)%nat with (S (n - 2)) by lia.
    rewrite (firstn_succ_nth ds _ _ H1), (firstn_succ_nth ds' _ _ H1'), Hbase.
    reflexivity. }
  rewrite <- (firstn_all ds), <- (firstn_all ds'), Hl, Hl'.
  replace n with (S (n - 1)) at 1 2 by lia.
  rewrite (firstn_succ_nth ds _ _ H2), (firstn_succ_nth ds' _ _ H2'), Hk.
  reflexivity.
Qed.

(** X8. The check digits are determined by the digits before them: two
    valid CPFs with the same first nine digits have the same digits, and two
    valid CNPJs with the same first twelve digits have the same digits.  So
    changing check digits alone never gives another valid id. *)
Theorem check_digits_unique (s t : jsstring) :
  (validateCPF s = true -> validateCPF t = true ->
   firstn 9 (strip_non_digits s) = firstn 9 (strip_non_digits t) ->
   strip_non_digits s = strip_non_digits t)
  /\ (validateCNPJ s = true -> validateCNPJ t = true ->
      firstn 12 (strip_non_digits s) = firstn 12 (strip_non_digits t) ->
      strip_non_digits s = strip_non_digits t).
Proof.
  split; intros Hs Ht Hbase.
  - rewrite validateCPF_shape in Hs, Ht.
    apply validate_shape_valid_id in Hs, Ht;
      try reflexivity; try lia; try (repeat constructor; lia).
    apply (map_injective Rule.digit_value digit_value_inj).
    apply (valid_id_unique 11 _ _ _ _ ltac:(lia) Hs Ht).
    unfold Rule.digits_of. cbn [Nat.sub]. rewrite !firstn_map, Hbase. reflexivity.
  - rewrite validateCNPJ_shape in Hs, Ht.
    apply validate_shape_valid_id in Hs, Ht;
      try reflexivity; try lia; try (repeat constructor; lia).
    apply (map_injective Rule.digit_value digit_value_inj).
    apply (valid_id_unique 14 _ _ _ _ ltac:(lia) Hs Ht).
    unfold Rule.digits_of. cbn [Nat.sub]. rewrite !firstn_map, Hbase. reflexivity.
Qed.

Lemma check_digits_unique_witness :
  validateCPF (lit "111.444.777-35") = true
  /\ validateCPF (lit "11144477735") = true
  /\ strip_non_digits (lit "111.444.777-35") = strip_non_digits (lit "11144477735").
Proof.
  split; [vm_compute; reflexivity |]. split; [vm_compute; reflexivity |].
  apply (proj1 (check_digits_unique (lit "111.444.777-35") (lit "11144477735")));
    vm_compute; reflexivity.
Defined.

Lemma check_digit_range (sum : Z) : 0 <= Rule.check_digit sum <= 9.
Proof.
  unfold Rule.check_digit. cbv zeta.
  pose proof (Z.mod_pos_bound sum 11 ltac:(lia)) as H.
  destruct (Z.ltb_spec (sum mod 11) 2); lia.
Qed.

Lemma digit_code_digit (d : Z) :
  0 <= d <= 9 ->
  is_digit (Z.to_N (48 + d)) = true /\ Rule.digit_value (Z.to_N (48 + d)) = d.
Proof.
  intros H. unfold is_digit, Rule.digit_value.
  rewrite andb_true_iff, !N.leb_le. lia.
Qed.

(** The check digits [calcularDigito] computes for a base make an id that the
    validator of the same shape accepts, unless all its digits are equal. *)
Lemma validate_shape_completion (w1 w2 : list Z) (base : jsstring) :
  List.length w1 = List.length base ->
  List.length w2 = S (List.length base) ->
  Forall (fun x => 0 <= x) w1 -> Forall (fun x => 0 <= x) w2 ->
  Forall (fun c => is_digit c = true) base ->
  exists d1 d2,
    calcularDigito base w1 = Some d1
    /\ calcularDigito (base ++ [Z.to_N (48 + d1)]) w2 = Some d2
    /\ 0 <= d1 <= 9 /\ 0 <= d2 <= 9
    /\ validate_shape (S (S (List.length base))) w1 w2
         (base ++ [Z.to_N (48 + d1); Z.to_N (48 + d2)])
       = negb (repeated_digit (S (List.length base))
                 (base ++ [Z.to_N (48 + d1); Z.to_N (48 + d2)])).
Proof.
  intros Hw1 Hw2 Hp1 Hp2 Hbase.
  pose proof (calcularDigito_check_digit base w1 Hbase ltac:(lia) Hp1) as Hc1.
  set (d1 := Rule.check_digit _) in Hc1.
  pose proof (check_digit_range (Rule.weighted_sum (List.map Rule.digit_value base) w1))
    as Hr1. fold d1 in Hr1.
  destruct (digit_code_digit d1 Hr1) as [Hdig1 Hval1].
  assert (Hbase1 : Forall (fun c => is_digit c = true) (base ++ [Z.to_N (48 + d1)])).
  { apply Forall_app. split; [assumption | now repeat constructor]. }
  pose proof (calcularDigito_check_digit _ w2 Hbase1
                ltac:(rewrite length_app; cbn; lia) Hp2) as Hc2.
  set (d2 := Rule.check_digit _) in Hc2.
  assert (Hr2 : 0 <= d2 <= 9) by apply check_digit_range.
  destruct (digit_code_digit d2 Hr2) as [Hdig2 Hval2].
  exists d1, d2. repeat split; try assumption; try lia.
  set (full := base ++ [Z.to_N (48 + d1); Z.to_N (48 + d2)]).
  assert (Hfull : Forall (fun c => is_digit c = true) full).
  { apply Forall_app. split; [assumption | now repeat constructor]. }
  assert (Hlen : List.length full = S (S (List.length base))).
  { unfold full. rewrite length_app. cbn. lia. }
  unfold validate_shape. cbv zeta. rewrite (strip_all_digits full Hfull).
  rewrite Hlen, Nat.eqb_refl. cbn [negb orb Nat.sub].
  rewrite Nat.sub_0_r.
  destruct (repeated_digit (S (List.length base)) full); [reflexivity |].
  cbn [negb].
  assert (Hn1 : nth_error full (List.length base) = Some (Z.to_N (48 + d1))).
  { unfold full. rewrite nth_error_app2, Nat.sub_diag by lia. reflexivity. }
  assert (Hn2 : nth_error full (S (List.length base)) = Some (Z.to_N (48 + d2))).
  { unfold full. rewrite nth_error_app2 by lia.
    replace (S (List.length base) - List.length base)%nat with 1%nat by lia.
    reflexivity. }
  rewrite (parseInt_Z_char_at _ _ _ Hn1 Hdig1), (parseInt_Z_char_at _ _ _ Hn2 Hdig2).
  rewrite Hval1, Hval2.
  assert (Hf1 : substring0 (List.length base) full = base).
  { unfold substring0, full. rewrite firstn_app, Nat.sub_diag, firstn_all.
    cbn [firstn]. now rewrite app_nil_r. }
  assert (Hf2 : substring0 (S (List.length base)) full = base ++ [Z.to_N (48 + d1)]).
  { unfold substring0. rewrite (firstn_succ_nth _ _ _ Hn1).
    fold (substring0 (List.length base) full). now rewrite Hf1. }
  rewrite Hf1, Hf2, Hc1, Hc2. cbn [strict_eq]. rewrite !Z.eqb_refl. reflexivity.
Qed.

(** X9. Every base of nine digits has a completion that [validateCPF]
    accepts: the two digits its own [calcularDigito] computes, each between 0
    and 9, appended in turn, unless the eleven digits are then all equal.
    The same holds of [validateCNPJ] and bases of twelve digits. *)
Theorem check_digits_complete (base : jsstring) :
  Forall (fun c => is_digit c = true) base ->
  (List.length base = 9%nat ->
   exists d1 d2,
     calcularDigito base [10; 9; 8; 7; 6; 5; 4; 3; 2] = Some d1
     /\ calcularDigito (base ++ [Z.to_N (48 + d1)])
          [11; 10; 9; 8; 7; 6; 5; 4; 3; 2] = Some d2
     /\ 0 <= d1 <= 9 /\ 0 <= d2 <= 9
     /\ validateCPF (base ++ [Z.to_N (48 + d1); Z.to_N (48 + d2)])
        = negb (repeated_digit 10 (base ++ [Z.to_N (48 + d1); Z.to_N (48 + d2)])))
  /\ (List.length base = 12%nat ->
      exists d1 d2,
        calcularDigitoCNPJ base [5; 4; 3; 2; 9; 8; 7; 6; 5; 4; 3; 2] = Some d1
        /\ calcularDigitoCNPJ (base ++ [Z.to_N (48 + d1)])
             [6; 5; 4; 3; 2; 9; 8; 7; 6; 5; 4; 3; 2] = Some d2
        /\ 0 <= d1 <= 9 /\ 0 <= d2 <= 9
        /\ validateCNPJ (base ++ [Z.to_N (48 + d1); Z.to_N (48 + d2)])
           = negb (repeated_digit 13 (base ++ [Z.to_N (48 + d1); Z.to_N (48 + d2)]))).
Proof.
  intros Hbase. split; intros Hlen.
  - destruct (validate_shape_completion Rule.cpf_weights_1 Rule.cpf_weights_2 base)
      as (d1 & d2 & H1 & H2 & Hr1 & Hr2 & Hv);
      try assumption; try (rewrite Hlen; reflexivity); try (repeat constructor; lia).
    exists d1, d2. rewrite Hlen in Hv. rewrite validateCPF_shape.
    repeat split; try assumption; lia.
  - destruct (validate_shape_completion Rule.cnpj_weights_1 Rule.cnpj_weights_2 base)
      as (d1 & d2 & H1 & H2 & Hr1 & Hr2 & Hv);
      try assumption; try (rewrite Hlen; reflexivity); try (repeat constructor; lia).
    exists d1, d2. rewrite Hlen in Hv. rewrite validateCNPJ_shape.
    repeat split; try assumption; lia.
Qed.

Lemma check_digits_complete_witness :
  Forall (fun c => is_digit c = true) (lit "111444777")
  /\ exists d1 d2,
      calcularDigito (lit "111444777") [10; 9; 8; 7; 6; 5; 4; 3; 2] = Some d1
      /\ calcularDigito (lit "111444777" ++ [Z.to_N (48 + d1)])
           [11; 10; 9; 8; 7; 6; 5; 4; 3; 2] = Some d2
      /\ 0 <= d1 <= 9 /\ 0 <= d2 <= 9
      /\ validateCPF (lit "111444777" ++ [Z.to_N (48 + d1); Z.to_N (48 + d2)])
         = negb (repeated_digit 10
                   (lit "111444777" ++ [Z.to_N (48 + d1); Z.to_N (48 + d2)])).
Proof.
  assert (H : Forall (fun c => is_digit c = true) (lit "111444777"))
    by (repeat constructor).
  split; [exact H |].
  exact (proj1 (check_digits_complete (lit "111444777") H) eq_refl).
Defined.

Lemma soma_loop_short_pesos (numeros : jsstring) :
  forall pesos soma,
    (List.length pesos < List.length numeros)%nat ->
    soma_loop numeros pesos soma = None.
Proof.
  assert (Hnan : forall numeros pesos, soma_loop numeros pesos None = None).
  { intros l. induction l as [| c n IH]; intros pesos; [reflexivity |].
    cbn [soma_loop nan_add]. apply IH. }
  induction numeros as [| c numeros IH]; intros pesos soma Hl;
    [cbn in Hl; lia |].
  destruct pesos as [| w pesos].
  - cbn [soma_loop hd_error tl].
    replace (nan_mul (parseInt_Z (Some [c]) None) None) with (@None Z)
      by (destruct (parseInt_Z (Some [c]) None); reflexivity).
    replace (nan_add soma None) with (@None Z) by (destruct soma; reflexivity).
    apply Hnan.
  - cbn [soma_loop tl]. apply IH. cbn in Hl. lia.
Qed.

(** X10. [calcularDigito] reads [pesos] at every index of [numeros]: with
    fewer weights than characters the sum is [NaN], so is the result, and a
    comparison with it fails. *)
Theorem calcularDigito_short_pesos (numeros : jsstring) (pesos : list Z) :
  (List.length pesos < List.length numeros)%nat ->
  calcularDigito numeros pesos = None
  /\ forall x, strict_eq x (calcularDigito numeros pesos) = false.
Proof.
  intros Hl. unfold calcularDigito. cbv zeta.
  rewrite soma_loop_short_pesos by assumption.
  split; [reflexivity |]. intros [x |]; reflexivity.
Qed.

Lemma calcularDigito_short_pesos_witness :
  (List.length [10; 9] < List.length (lit "111"))%nat
  /\ calcularDigito (lit "111") [10; 9] = None.
Proof.
  split; [cbn; lia |].
  exact (proj1 (calcularDigito_short_pesos (lit "111") [10; 9] ltac:(cbn; lia))).
Defined.

(** * More on the per-record algorithm *)

Lemma format_gate_of_length (d : ICSVData) (n : nat) :
  List.length (strip_non_digits (nrCpfCnpj d)) = n ->
  format_gate d = includes_11_14 n.
Proof. intros H. unfold format_gate. now rewrite H. Qed.

(** X11. A taxpayer id of 14 characters with 11 digits (a CPF written as
    111.444.777-35) is always rejected with "Invalid CNPJ", whether its
    check digits are right or not. *)
Theorem punctuated_cpf_rejected (this : CsvDataProcessor) (d : ICSVData) :
  List.length (nrCpfCnpj d) = 14%nat ->
  List.length (strip_non_digits (nrCpfCnpj d)) = 11%nat ->
  rejects this d (lit "Invalid CNPJ").
Proof.
  intros H14 H11.
  assert (Hv : validateCNPJ (nrCpfCnpj d) = false).
  { destruct (validateCNPJ (nrCpfCnpj d)) eqn:H; [| reflexivity].
    apply validateCNPJ_length in H. lia. }
  unfold rejects, proccess. rewrite H14, H11, Hv. reflexivity.
Qed.

Lemma punctuated_cpf_rejected_witness :
  List.length (lit "111.444.777-35") = 14%nat
  /\ validateCPF (lit "111.444.777-35") = true
  /\ rejects (constructor [] None) (row "111.444.777-35" "1000.00" "10" "100.00")
       (lit "Invalid CNPJ").
Proof.
  split; [reflexivity |]. split; [vm_compute; reflexivity |].
  exact (punctuated_cpf_rejected (constructor [] None)
           (row "111.444.777-35" "1000.00" "10" "100.00") eq_refl eq_refl).
Defined.

(** X12. For a taxpayer id of 11 characters, [proccess] accepts the record
    exactly when [validateCPF] and [validateInstallments] hold; for one of 14
    characters, exactly when [validateCNPJ] and [validateInstallments]
    hold. *)
Theorem accepts_by_length (this : CsvDataProcessor) (d : ICSVData) :
  (List.length (nrCpfCnpj d) = 11%nat ->
   (accepts this d
    <-> validateCPF (nrCpfCnpj d) = true /\ validateInstallments d = true))
  /\ (List.length (nrCpfCnpj d) = 14%nat ->
      (accepts this d
       <-> validateCNPJ (nrCpfCnpj d) = true /\ validateInstallments d = true)).
Proof.
  split; intros Hlen; split.
  - intros Ha.
    destruct (proccess_outcome this d)
      as [[_ H] | [(_ & _ & _ & H) | [(_ & _ & _ & H) | [(_ & _ & _ & H) | (_ & Hc & Hi & _)]]]];
      try (destruct (rejects_not_accepts _ _ _ H Ha)).
    unfold Pipeline.passes in Hc. rewrite Hlen in Hc. cbn in Hc. now split.
  - intros [Hv Hi].
    pose proof (validateCPF_length _ Hv) as Hs.
    pose proof (format_gate_of_length d 11 Hs) as Hg. cbn in Hg.
    destruct (proccess_outcome this d)
      as [[Hg' _] | [(_ & _ & Hv' & _) | [(_ & Hl & _) | [(_ & _ & Hi' & _) | (_ & _ & _ & Ha)]]]];
      try congruence; lia.
  - intros Ha.
    destruct (proccess_outcome this d)
      as [[_ H] | [(_ & _ & _ & H) | [(_ & _ & _ & H) | [(_ & _ & _ & H) | (_ & Hc & Hi & _)]]]];
      try (destruct (rejects_not_accepts _ _ _ H Ha)).
    unfold Pipeline.passes in Hc. rewrite Hlen in Hc. cbn in Hc. now split.
  - intros [Hv Hi].
    pose proof (validateCNPJ_length _ Hv) as Hs.
    pose proof (format_gate_of_length d 14 Hs) as Hg. cbn in Hg.
    destruct (proccess_outcome this d)
      as [[Hg' _] | [(_ & Hl & _) | [(_ & _ & Hv' & _) | [(_ & _ & Hi' & _) | (_ & _ & _ & Ha)]]]];
      try congruence; lia.
Qed.

Lemma accepts_by_length_witness :
  List.length (nrCpfCnpj sample_row) = 11%nat /\ accepts (constructor [] None) sample_row.
Proof.
  split; [reflexivity |].
  apply (proj1 (accepts_by_length (constructor [] None) sample_row) eq_refl).
  split; vm_compute; reflexivity.
Defined.

(** * More on installment consistency *)

Lemma number_div_nan (x y : number) :
  x = NaN \/ y = NaN -> number_div x y = NaN.
Proof.
  intros [-> | ->]; [reflexivity |]. destruct x; reflexivity.
Qed.

Lemma number_eq_nan (x y : number) :
  x = NaN \/ y = NaN -> number_eq x y = false.
Proof.
  intros [-> | ->]; [reflexivity |]. destruct x; reflexivity.
Qed.

Lemma not_accepted_without_installments (this : CsvDataProcessor) (d : ICSVData) :
  validateInstallments d = false -> ~ accepts this d.
Proof.
  intros Hi Ha.
  destruct (proccess_outcome this d)
    as [[_ H] | [(_ & _ & _ & H) | [(_ & _ & _ & H) | [(_ & _ & _ & H) | (_ & _ & Hi' & _)]]]];
    try (destruct (rejects_not_accepts _ _ _ H Ha)).
  congruence.
Qed.

(** X13. A record whose total, installment count or installment value does
    not parse to a number fails [validateInstallments] and is never
    accepted; an empty field is such a value. *)
Theorem validateInstallments_rejects_nan (d : ICSVData) :
  parseFloat (vlTotal d) = NaN \/ parseInt (qtPrestacoes d) None = NaN
  \/ parseFloat (vlPresta d) = NaN \/ vlTotal d = [] \/ qtPrestacoes d = []
  \/ vlPresta d = [] ->
  validateInstallments d = false /\ forall this, ~ accepts this d.
Proof.
  intros H.
  assert (Hv : validateInstallments d = false).
  { unfold validateInstallments.
    destruct H as [H | [H | [H | [H | [H | H]]]]].
    - apply number_eq_nan. left. apply number_div_nan. now left.
    - apply number_eq_nan. left. apply number_div_nan. now right.
    - apply number_eq_nan. now right.
    - rewrite H. apply number_eq_nan. left. apply number_div_nan. now left.
    - rewrite H. apply number_eq_nan. left. apply number_div_nan. now right.
    - rewrite H. apply number_eq_nan. now right. }
  split; [exact Hv |]. intros this. now apply not_accepted_without_installments.
Qed.

Lemma validateInstallments_rejects_nan_witness :
  parseInt (qtPrestacoes (row "11144477735" "1000.00" "dez" "100.00")) None = NaN
  /\ validateInstallments (row "11144477735" "1000.00" "dez" "100.00") = false.
Proof.
  split; [vm_compute; reflexivity |].
  apply (validateInstallments_rejects_nan (row "11144477735" "1000.00" "dez" "100.00")).
  right; left. vm_compute. reflexivity.
Defined.

(** X14. An installment count that parses to zero never passes against a
    finite installment value: the quotient is an infinity or [NaN], nothing
    is thrown, and the record is not accepted. *)
Theorem validateInstallments_zero_count (d : ICSVData) (s : bool) :
  parseInt (qtPrestacoes d) None = S754_zero s ->
  is_finite (parseFloat (vlPresta d)) = true ->
  is_finite (number_div (parseFloat (vlTotal d)) (parseInt (qtPrestacoes d) None))
  = false
  /\ validateInstallments d = false
  /\ forall this, ~ accepts this d.
Proof.
  intros Hq Hp.
  assert (Hv : is_finite (number_div (parseFloat (vlTotal d))
                            (parseInt (qtPrestacoes d) None)) = false
               /\ validateInstallments d = false).
  { unfold validateInstallments. rewrite Hq.
    destruct (parseFloat (vlTotal d)) as [st | st | | st mt et];
      destruct (parseFloat (vlPresta d)) as [sp | sp | | sp mp ep];
      try discriminate; split; try reflexivity;
      cbn; destruct st, s, sp; reflexivity. }
  destruct Hv as [Hf Hv]. repeat split; try assumption.
  intros this. now apply not_accepted_without_installments.
Qed.

Lemma validateInstallments_zero_count_witness :
  parseInt (qtPrestacoes (row "11144477735" "1000.00" "0" "100.00")) None
  = S754_zero false
  /\ validateInstallments (row "11144477735" "1000.00" "0" "100.00") = false.
Proof.
  split; [vm_compute; reflexivity |].
  apply (validateInstallments_zero_count
           (row "11144477735" "1000.00" "0" "100.00") false);
    vm_compute; reflexivity.
Defined.

Lemma strip_hex_prefix_Some (s rest : jsstring) :
  strip_hex_prefix s = Some rest ->
  s = 48%N :: 120%N :: rest \/ s = 48%N :: 88%N :: rest.
Proof.
  destruct s as [| a [| b r]]; cbn.
  - discriminate.
  - destruct (N.eq_dec a 48) as [-> | Ha]; [discriminate |].
    destruct a as [| p]; [discriminate |].
    repeat (destruct p as [p | p |]; try discriminate); try congruence.
  - destruct (N.eq_dec a 48) as [-> | Ha].
    + destruct (N.eq_dec b 120) as [-> | Hb]; [intros [= ->]; now left |].
      destruct (N.eq_dec b 88) as [-> | Hb']; [intros [= ->]; now right |].
      destruct b as [| p]; [discriminate |].
      repeat (destruct p as [p | p |]; try discriminate); try congruence.
    + destruct a as [| p]; [discriminate |].
      repeat (destruct p as [p | p |]; try discriminate); try congruence.
Qed.

(** X15. The installment count is parsed twice, without a radix by
    [validateInstallments] and in base 10 for the normalized record.  The two
    parses agree unless the count, after leading white space and sign, starts
    with 0x or 0X; then the check reads it in base 16 and the normalized
    record holds zero. *)
Theorem installment_count_parsed_twice (d : ICSVData) :
  let '(neg, str) := strip_sign (trim_start (qtPrestacoes d)) in
  (strip_hex_prefix str = None ->
   qtPrestacoes' (normalized d) = parseInt (qtPrestacoes d) None)
  /\ (forall rest, strip_hex_prefix str = Some rest ->
                   qtPrestacoes' (normalized d) = S754_zero neg).
Proof.
  cbn [normalized qtPrestacoes']. unfold parseInt, parseInt_sign_magnitude.
  destruct (strip_sign (trim_start (qtPrestacoes d))) as [neg str].
  split.
  - intros H. cbn. rewrite H. reflexivity.
  - intros rest H. apply strip_hex_prefix_Some in H.
    destruct H as [-> | ->]; cbn; destruct neg; reflexivity.
Qed.

Lemma installment_count_parsed_twice_witness :
  accepts (constructor [] None) (row "11144477735" "1000.00" "0x0A" "100.00")
  /\ parseInt (lit "0x0A") None = number_of_Z false 10
  /\ qtPrestacoes' (normalized (row "11144477735" "1000.00" "0x0A" "100.00"))
     = S754_zero false.
Proof.
  split; [vm_compute; reflexivity |]. split; [vm_compute; reflexivity |].
  exact (proj2 (installment_count_parsed_twice
                  (row "11144477735" "1000.00" "0x0A" "100.00"))
           (lit "0A") eq_refl).
Defined.

(** * Full batches *)

Lemma proccessBatch_batch_log (this : CsvDataProcessor) (out : console) :
  proccessBatch this out
  = (resetData this, out ++ batch_log (error_results this, success_results this)).
Proof.
  unfold proccessBatch, batch_log. cbn [fst snd]. rewrite <- app_assoc. reflexivity.
Qed.

Lemma feed_batches (rows : list ICSVData) :
  forall this out,
    1 <= batchSize this ->
    0 <= count this < batchSize this ->
    count_invariant this ->
    exists batches,
      snd (feed rows (this, out)) = out ++ flat_map batch_log batches
      /\ Forall (fun b => Z.of_nat (List.length (fst b)) + Z.of_nat (List.length (snd b))
                          = batchSize this) batches.
Proof.
  induction rows as [| d rows IH]; intros this out HB Hc Hinv.
  - exists []. cbn. rewrite app_nil_r. split; [reflexivity | constructor].
  - rewrite feed_cons. cbn [on_data].
    destruct (proccess_effect this d) as (_ & Hb & Hcnt & Hpush).
    assert (Hinv' : count_invariant (proccess this d)).
    { unfold count_invariant in *.
      destruct Hpush as [[e [He Hs]] | [n [Hs He]]];
        rewrite Hcnt, He, Hs, length_app; simpl; lia. }
    destruct (Z.geb_spec (count (proccess this d)) (batchSize (proccess this d)))
      as [Hge | Hlt]; rewrite Hb, Hcnt in *.
    + rewrite proccessBatch_batch_log.
      match goal with
      | |- context [feed rows (?t, ?o)] =>
          destruct (IH t o) as (batches & Hout & Hall);
          [cbn; lia | cbn; lia | reflexivity |]
      end.
      cbn [resetData batchSize] in Hall. rewrite Hb in Hall.
      exists ((error_results (proccess this d), success_results (proccess this d))
              :: batches).
      split.
      * etransitivity; [exact Hout |].
        cbn [flat_map]. rewrite <- app_assoc. reflexivity.
      * constructor; [| exact Hall]. cbn [fst snd].
        red in Hinv'. rewrite Hcnt in Hinv'. lia.
    + destruct (IH (proccess this d) out) as (batches & Hout & Hall);
        [lia | lia | assumption |].
      rewrite Hb in Hall. exists batches. split; assumption.
Qed.

(** X16. With a batch size of at least one, every flush that happens while
    rows arrive hands over a full batch: what the ['data'] events of a run
    add to the console is a sequence of flushes, each of exactly [batchSize]
    rows, rejected and accepted together. *)
Theorem data_flushes_are_full (this : CsvDataProcessor) (out : console)
    (rows : list ICSVData) :
  1 <= batchSize this ->
  exists batches,
    snd (feed rows (resetData this, out)) = out ++ flat_map batch_log batches
    /\ Forall (fun b => Z.of_nat (List.length (fst b)) + Z.of_nat (List.length (snd b))
                        = batchSize this) batches.
Proof.
  intros HB.
  destruct (feed_batches rows (resetData this) out) as (batches & Hout & Hall);
    [exact HB | cbn; lia | reflexivity |].
  exists batches. split; assumption.
Qed.

Lemma data_flushes_are_full_witness :
  1 <= batchSize (constructor [] (Some 2))
  /\ exists batches,
      snd (feed [sample_row; sample_row; sample_row]
             (resetData (constructor [] (Some 2)), []))
      = [] ++ flat_map batch_log batches
      /\ Forall (fun b => Z.of_nat (List.length (fst b)) + Z.of_nat (List.length (snd b))
                          = batchSize (constructor [] (Some 2))) batches.
Proof.
  split; [cbn; lia |].
  exact (data_flushes_are_full (constructor [] (Some 2)) []
           [sample_row; sample_row; sample_row] ltac:(cbn; lia)).
Defined.
